(** * KidsSmart+ educational finder: the search, classify and filter pipeline

    A shallow embedding of [app.py] and [database.py].  Python values are
    modelled as follows.

    - A [str] is its sequence of Unicode code points ([list N]); literals of
      the source are written [lit "..."].
    - An [int] is a [Z]; a slice [s[:n]] follows Python also for negative [n].
    - The builtins [str.lower] and [str.strip] use Unicode tables that are not
      part of the repository: they are fields of the class [PyBuiltins].
    - The network collaborators (SerpAPI, requests with BeautifulSoup) are
      fields of the class [World]; a call either returns or raises.
    - The SQLite file is a value of type [database], threaded through the
      functions of [database.py]. *)

From Stdlib Require Import ZArith NArith List String Ascii Bool Lia Sorted.
Import ListNotations.

Local Open Scope Z_scope.

(** ** Python strings *)

Definition str := list N.

Definition lit (s : string) : str := map N_of_ascii (list_ascii_of_string s).

(** [a == b] on strings. *)
Fixpoint str_eqb (a b : str) : bool :=
  match a, b with
  | [], [] => true
  | x :: a', y :: b' => N.eqb x y && str_eqb a' b'
  | _, _ => false
  end.

(** [s.startswith(p)]. *)
Fixpoint startswith (p s : str) : bool :=
  match p, s with
  | [], _ => true
  | _ :: _, [] => false
  | x :: p', y :: s' => N.eqb x y && startswith p' s'
  end.

(** [p in s]: [p] occurs in [s] as a contiguous run. *)
Fixpoint str_in (p s : str) : bool :=
  startswith p s ||
  match s with
  | [] => false
  | _ :: s' => str_in p s'
  end.

(** [l[:n]]: the first [n] elements, or all but the last [-n] when [n] is
    negative. *)
Definition slice_to {A : Type} (l : list A) (n : Z) : list A :=
  if 0 <=? n then firstn (Z.to_nat n) l
  else firstn (List.length l - Z.to_nat (- n)) l.

(** [sep.join(parts)]. *)
Fixpoint join (sep : str) (parts : list str) : str :=
  match parts with
  | [] => []
  | [p] => p
  | p :: ps => p ++ sep ++ join sep ps
  end.

(** Truth value of a string or list: non-empty. *)
Definition truthy {A : Type} (l : list A) : bool :=
  match l with
  | [] => false
  | _ :: _ => true
  end.

(** [a or b] on strings and lists. *)
Definition py_or {A : Type} (a b : list A) : list A :=
  if truthy a then a else b.

(** [any(f(x) for x in xs)]. *)
Definition any {A : Type} (f : A -> bool) (xs : list A) : bool := existsb f xs.

(** [d.get(key, default)] where the dictionary entry may be absent. *)
Definition dict_get {A : Type} (entry : option A) (default : A) : A :=
  match entry with
  | Some v => v
  | None => default
  end.

(** The builtins whose tables live outside the repository. *)
Class PyBuiltins := {
  lower : str -> str;
  strip : str -> str
}.

(** A code point that [str.lower] leaves alone whatever surrounds it: ASCII,
    and not one of [A]..[Z]. *)
Definition lower_fixed (c : N) : bool :=
  (N.ltb c 128 && negb (N.leb 65 c && N.leb c 90))%N.

(** What the proofs use of [str.lower]. *)
Class PyBuiltinsLaws (B : PyBuiltins) : Prop := {
  lower_empty : lower [] = [];
  lower_keeps : forall w s,
      forallb lower_fixed w = true ->
      str_in w s = true -> str_in w (lower s) = true
}.

(** An executable instance: ASCII case folding, ASCII white space. *)
Definition ascii_lower_cp (c : N) : N :=
  if (N.leb 65 c && N.leb c 90)%N then (c + 32)%N else c.

Definition ascii_space (c : N) : bool :=
  (N.eqb c 32 || (N.leb 9 c && N.leb c 13))%N.

Fixpoint lstrip (s : str) : str :=
  match s with
  | [] => []
  | c :: s' => if ascii_space c then lstrip s' else s
  end.

Definition ascii_builtins : PyBuiltins := {|
  lower := map ascii_lower_cp;
  strip := fun s => rev (lstrip (rev (lstrip s)))
|}.

(** ** Validation helpers of [app.py] *)

Section Classifier.
Context {B : PyBuiltins}.

Definition EDU_KEYWORDS : list str :=
  [ lit "course"; lit "class"; lit "workshop"; lit "training"; lit "tutorial";
    lit "webinar"; lit "lecture"; lit "program"; lit "degree"; lit "diploma";
    lit "certificate"; lit "bootcamp"; lit "seminar"; lit "learn";
    lit "education"; lit "study" ].

Definition is_educational (text : str) : bool :=
  let t := lower text in
  any (fun word => str_in word t) EDU_KEYWORDS.

Definition classify_type (text : str) : str :=
  let t := lower text in
  if str_in (lit "webinar") t || str_in (lit "seminar") t
     || str_in (lit "workshop") t then
    lit "Seminar / Workshop"
  else if str_in (lit "video") t || str_in (lit "youtube") t
          || str_in (lit "lecture") t then
    lit "Video / Lecture"
  else if str_in (lit "course") t || str_in (lit "short course") t
          || str_in (lit "bootcamp") t || str_in (lit "mooc") t then
    lit "Course"
  else lit "Article / Other".

Definition classify_mode (text : str) : str :=
  let t := lower text in
  if str_in (lit "online") t || str_in (lit "virtual") t
     || str_in (lit "remote") t || str_in (lit "self-paced") t then
    lit "Online"
  else if str_in (lit "campus") t || str_in (lit "in-person") t
          || str_in (lit "on campus") t || str_in (lit "classroom") t
          || str_in (lit "venue") t then
    lit "In-person"
  else lit "Unknown".

Definition classify_cost (text : str) : str :=
  let t := lower text in
  if str_in (lit "free") t || str_in (lit "no cost") t then
    lit "Free"
  else if str_in (lit "$") t || str_in (lit "aud") t || str_in (lit "fee") t
          || str_in (lit "per month") t || str_in (lit "per year") t then
    lit "Paid / Unknown"
  else lit "Unknown".

Definition matches_location (combined_text country region : str) : bool :=
  let text := lower combined_text in
  if str_eqb country (lit "Any") then true
  else
    let c := lower country in
    let r := lower region in
    if str_eqb region (lit "Any") then str_in c text
    else str_in c text || str_in r text.

End Classifier.

(** ** Exceptions *)

(** An instance of [Exception]; [exn_str e] is [str(e)]. *)
Record exn := { exn_str : str }.

(** A call returns a value or raises. *)
Inductive result (A : Type) : Type :=
| Ok (a : A)
| Raise (e : exn).

Arguments Ok {A} a.
Arguments Raise {A} e.

Definition bind {A B : Type} (m : result A) (k : A -> result B) : result B :=
  match m with
  | Ok a => k a
  | Raise e => Raise e
  end.

Notation "x <- m ;; k" := (bind m (fun x => k))
  (at level 61, m at next level, right associativity).
Notation "' p <- m ;; k" := (bind m (fun x => let p := x in k))
  (at level 61, p pattern, m at next level, right associativity).

(** [try: body  except Exception as e: handler(e)]. *)
Definition try_except {A : Type} (body : result A) (handler : exn -> result A)
  : result A :=
  match body with
  | Ok a => Ok a
  | Raise e => handler e
  end.

(** ** Online search through SerpAPI *)

(** One entry of [organic_results]; a key may be missing. *)
Record organic_result := {
  r_title : option str;
  r_link : option str;
  r_snippet : option str
}.

Record serp_params := {
  engine : str;
  q : str;
  num : Z;
  api_key : str
}.

(** The dictionary [search.get_dict()] returns. *)
Record serp_dict := { organic_results : option (list organic_result) }.

(** The collaborators behind the network, and the configured key.
    [page_words url] stands for the body of the [try] in [scrape_page] up to
    [soup.get_text(" ").split()]: the request, the status check, the parse
    and the removal of script, style and noscript elements. *)
Class World := {
  API_KEY : str;
  GoogleSearch_get_dict : serp_params -> result serp_dict;
  page_words : str -> result (list str)
}.

Record hit := {
  title : str;
  link : str;
  snippet : str
}.

Record filters := {
  ftype : str;
  fmode : str;
  fcost : str;
  fcountry : str;
  fregion : str
}.

(** What the user is shown by [st.error], and the searches issued. *)
Inductive event :=
| Queried (query : str) (max_results : Z)
| StError (msg : str).

Section Search.
Context {W : World}.

(** The loop over [organic], with [results] as accumulator. *)
Fixpoint collect_hits (organic : list organic_result) (results : list hit)
  : list hit :=
  match organic with
  | [] => results
  | r :: rest =>
      let title := dict_get (r_title r) [] in
      let link := dict_get (r_link r) [] in
      let snippet := dict_get (r_snippet r) [] in
      if truthy link then
        collect_hits rest
          (results ++ [{| title := title; link := link; snippet := snippet |}])
      else collect_hits rest results
  end.

Definition _run_serpapi_query (query : str) (max_results : Z)
  : result (list hit) :=
  let params := {| engine := lit "google"; q := query;
                   num := max_results; api_key := API_KEY |} in
  data <- GoogleSearch_get_dict params ;;
  let organic := slice_to (dict_get (organic_results data) []) max_results in
  Ok (collect_hits organic []).

(** Lines 126 to 146 of [search_web]: the base terms. *)
Definition base_parts (topic : str) (f : filters) : list str :=
  let base_parts :=
    [topic; lit "education"; lit "course OR workshop OR webinar OR training"] in
  let base_parts :=
    if str_eqb (ftype f) (lit "Course") then base_parts ++ [lit "course"]
    else if str_eqb (ftype f) (lit "Seminar / Workshop") then
      base_parts ++ [lit "seminar OR workshop"]
    else if str_eqb (ftype f) (lit "Video / Lecture") then
      base_parts ++ [lit "video OR lecture"]
    else base_parts in
  let base_parts :=
    if str_eqb (fmode f) (lit "Online") then base_parts ++ [lit "online"]
    else if str_eqb (fmode f) (lit "In-person") then
      base_parts ++ [lit "in person OR on campus"]
    else base_parts in
  if str_eqb (fcost f) (lit "Free") then base_parts ++ [lit "free"]
  else if str_eqb (fcost f) (lit "Paid / Unknown") then
    base_parts ++ [lit "fee OR $"]
  else base_parts.

(** Lines 148 to 159: the term lists to try, most specific first. *)
Definition tries (topic : str) (f : filters) : list (list str) :=
  let base_parts := base_parts topic f in
  let country := fcountry f in
  let region := fregion f in
  let tries := [] in
  let tries :=
    if negb (str_eqb country (lit "Any")) && negb (str_eqb region (lit "Any"))
    then tries ++ [base_parts ++ [country; region]]
    else tries in
  let tries :=
    if negb (str_eqb country (lit "Any"))
    then tries ++ [base_parts ++ [country]]
    else tries in
  tries ++ [base_parts].

(** The query strings of the candidates, as the loop joins them. *)
Definition query_candidates (topic : str) (f : filters) : list str :=
  map (join (lit " ")) (tries topic f).

(** Lines 161 to 173: the loop over [tries]. *)
Fixpoint search_loop (tries : list (list str)) (max_results : Z)
  : result (list event * list hit) :=
  match tries with
  | [] => Ok ([], [])
  | parts :: rest =>
      let query := join (lit " ") parts in
      '(log, results) <-
        try_except
          (results <- _run_serpapi_query query max_results ;;
           Ok ([Queried query max_results], results))
          (fun e =>
             Ok ([Queried query max_results;
                  StError (lit "Search error: " ++ exn_str e)], [])) ;;
      if truthy results then Ok (log, results)
      else
        '(log', found) <- search_loop rest max_results ;;
        Ok (log ++ log', found)
  end.

Definition search_web (topic : str) (f : filters) (max_results : Z)
  : result (list event * list hit) :=
  if str_eqb API_KEY (lit "YOUR_SERPAPI_KEY_HERE") then
    Ok ([StError (lit "Set your SerpAPI key in app.py (API_KEY).")], [])
  else search_loop (tries topic f) max_results.

(** ** Scraping a page *)

(** The default of the parameter [max_chars]. *)
Definition default_max_chars : Z := 1500.

Definition scrape_page (url : str) (max_chars : Z) : result str :=
  try_except
    (words <- page_words url ;;
     let text := join (lit " ") words in
     Ok (slice_to text max_chars))
    (fun e => Ok (lit "(scrape error: " ++ exn_str e ++ lit ")")).

End Search.

(** ** The result store of [database.py] *)

Record row := {
  id : Z;
  query : str;
  row_title : str;
  row_link : str;
  content : str
}.

(** The table [results]: its rows in insertion order, and the entry SQLite
    keeps for an AUTOINCREMENT key, the largest id ever handed out. *)
Record table := {
  rows : list row;
  seq : Z
}.

(** The file [search_results.db]: it holds the table or does not yet. *)
Definition database := option table.

(** The largest rowid of SQLite, a signed 64-bit integer. *)
Definition max_rowid : Z := 9223372036854775807.

Definition largest_id (rs : list row) : Z :=
  fold_right (fun r m => Z.max (id r) m) 0 rs.

(** [CREATE TABLE results(...)], with or without [IF NOT EXISTS]. *)
Definition create_table (if_not_exists : bool) (db : database)
  : result database :=
  match db with
  | None => Ok (Some {| rows := []; seq := 0 |})
  | Some t =>
      if if_not_exists then Ok (Some t)
      else Raise {| exn_str := lit "table results already exists" |}
  end.

(** [INSERT INTO results(query,title,link,content) VALUES (?,?,?,?)]: the
    id is one more than the largest ever used; once the largest rowid has
    been used the insert fails. *)
Definition insert_row (query title link content : str) (db : database)
  : result database :=
  match db with
  | None => Raise {| exn_str := lit "no such table: results" |}
  | Some t =>
      let last := Z.max (seq t) (largest_id (rows t)) in
      if last <? max_rowid then
        let r := {| id := last + 1; query := query; row_title := title;
                    row_link := link; content := content |} in
        Ok (Some {| rows := rows t ++ [r]; seq := last + 1 |})
      else Raise {| exn_str := lit "database or disk is full" |}
  end.

(** [ORDER BY id DESC], as an insertion sort. *)
Fixpoint insert_desc (r : row) (sorted : list row) : list row :=
  match sorted with
  | [] => [r]
  | r' :: rest =>
      if id r' <=? id r then r :: sorted else r' :: insert_desc r rest
  end.

Fixpoint order_by_id_desc (rs : list row) : list row :=
  match rs with
  | [] => []
  | r :: rest => insert_desc r (order_by_id_desc rest)
  end.

(** [SELECT id, query, title, link, content FROM results ORDER BY id DESC]. *)
Definition select_all_desc (db : database) : result (list row) :=
  match db with
  | None => Raise {| exn_str := lit "no such table: results" |}
  | Some t => Ok (order_by_id_desc (rows t))
  end.

Definition create_database (db : database) : result database :=
  create_table true db.

Definition save_result (query title link content : str) (db : database)
  : result database :=
  insert_row query title link (py_or content []) db.

Definition get_results (db : database) : result (list row) :=
  select_all_desc db.

(** The operations a client of the store can run, and a run of them. *)
Inductive store_op :=
| OpCreate
| OpSave (query title link content : str)
| OpList.

(** A failed operation leaves the file as it was: the connection rolls
    back and the caller goes on. *)
Definition run_op (op : store_op) (db : database) : database :=
  match op with
  | OpCreate =>
      match create_database db with Ok db' => db' | Raise _ => db end
  | OpSave q t l c =>
      match save_result q t l c db with Ok db' => db' | Raise _ => db end
  | OpList => db
  end.

Definition run_ops (ops : list store_op) (db : database) : database :=
  fold_left (fun d op => run_op op d) ops db.

Definition stored_rows (db : database) : list row :=
  match db with
  | None => []
  | Some t => rows t
  end.

(** ** The list objects of [search_web]

    [base_parts] is one list object: [append] changes it in place, [+]
    builds a new object, and [tries.append(base_parts)] stores the object
    itself.  A heap of list objects makes this sharing explicit. *)

Definition ref := nat.
Definition heap := list (list str).

Definition deref (h : heap) (r : ref) : list str := nth r h [].

Definition alloc (l : list str) (h : heap) : ref * heap :=
  (List.length h, h ++ [l]).

Fixpoint store (r : ref) (l : list str) (h : heap) : heap :=
  match h, r with
  | [], _ => []
  | _ :: h', O => l :: h'
  | x :: h', S r' => x :: store r' l h'
  end.

(** [r.append(x)]. *)
Definition list_append (r : ref) (x : str) (h : heap) : heap :=
  store r (deref h r ++ [x]) h.

(** [r + l]. *)
Definition list_add (r : ref) (l : list str) (h : heap) : ref * heap :=
  alloc (deref h r ++ l) h.

(** Lines 126 to 146, on the heap. *)
Definition build_base_parts (topic : str) (f : filters) (h : heap)
  : ref * heap :=
  let '(base_parts, h) :=
    alloc [topic; lit "education";
           lit "course OR workshop OR webinar OR training"] h in
  let h :=
    if str_eqb (ftype f) (lit "Course") then
      list_append base_parts (lit "course") h
    else if str_eqb (ftype f) (lit "Seminar / Workshop") then
      list_append base_parts (lit "seminar OR workshop") h
    else if str_eqb (ftype f) (lit "Video / Lecture") then
      list_append base_parts (lit "video OR lecture") h
    else h in
  let h :=
    if str_eqb (fmode f) (lit "Online") then
      list_append base_parts (lit "online") h
    else if str_eqb (fmode f) (lit "In-person") then
      list_append base_parts (lit "in person OR on campus") h
    else h in
  let h :=
    if str_eqb (fcost f) (lit "Free") then
      list_append base_parts (lit "free") h
    else if str_eqb (fcost f) (lit "Paid / Unknown") then
      list_append base_parts (lit "fee OR $") h
    else h in
  (base_parts, h).

(** Lines 148 to 159, on the heap: the references collected in [tries]. *)
Definition build_tries (base_parts : ref) (f : filters) (h : heap)
  : list ref * heap :=
  let country := fcountry f in
  let region := fregion f in
  let tries := [] in
  let '(tries, h) :=
    if negb (str_eqb country (lit "Any")) && negb (str_eqb region (lit "Any"))
    then
      let '(r, h) := list_add base_parts [country; region] h in
      (tries ++ [r], h)
    else (tries, h) in
  let '(tries, h) :=
    if negb (str_eqb country (lit "Any")) then
      let '(r, h) := list_add base_parts [country] h in
      (tries ++ [r], h)
    else (tries, h) in
  (tries ++ [base_parts], h).

(** ** The page "Find Programs" *)

Record item := {
  item_title : str;
  item_link : str;
  item_snippet : str;
  item_type : str;
  item_mode : str;
  item_cost : str;
  item_country : str;
  item_region : str;
  raw_text : str
}.

Inductive outcome :=
| TopicMissing
| ZeroSearchResults
| NoPageMatched
| Showing (items : list item).

Definition newline : str := [10%N].

Section Pipeline.
Context {B : PyBuiltins} {W : World}.

(** [f"{r['title']} {r.get('snippet','')} {page_text}"]. *)
Definition combined_text (r : hit) (page_text : str) : str :=
  title r ++ lit " " ++ snippet r ++ lit " " ++ page_text.

(** Lines 284 to 323, one round of the loop; [None] is [continue]. *)
Definition validate_hit (f : filters) (r : hit) : result (option item) :=
  page_text <- scrape_page (link r) default_max_chars ;;
  let combined := combined_text r page_text in
  if negb (is_educational combined) then Ok None
  else if negb (matches_location combined (fcountry f) (fregion f)) then
    Ok None
  else
    let r_type := classify_type combined in
    let r_mode := classify_mode combined in
    let r_cost := classify_cost combined in
    if negb (str_eqb (ftype f) (lit "Any"))
       && negb (str_eqb r_type (ftype f)) then Ok None
    else if negb (str_eqb (fmode f) (lit "Any"))
            && negb (str_eqb r_mode (fmode f)) then Ok None
    else if negb (str_eqb (fcost f) (lit "Any"))
            && negb (str_eqb r_cost (fcost f)) then Ok None
    else
      let snippet := py_or (snippet r) (slice_to page_text 300) in
      Ok (Some {| item_title := title r;
                  item_link := link r;
                  item_snippet := snippet;
                  item_type := r_type;
                  item_mode := r_mode;
                  item_cost := r_cost;
                  item_country := fcountry f;
                  item_region := fregion f;
                  raw_text := slice_to combined 2000 |}).

Fixpoint validate_hits (f : filters) (search_results : list hit)
    (items : list item) : result (list item) :=
  match search_results with
  | [] => Ok items
  | r :: rest =>
      o <- validate_hit f r ;;
      match o with
      | Some it => validate_hits f rest (items ++ [it])
      | None => validate_hits f rest items
      end
  end.

(** The fourth argument of the call of [save_result], line 337. *)
Definition content_of (it : item) : str :=
  lit "[TYPE:" ++ item_type it ++ lit "][MODE:" ++ item_mode it
  ++ lit "][COST:" ++ item_cost it ++ lit "][COUNTRY:" ++ item_country it
  ++ lit "][REGION:" ++ item_region it ++ lit "]" ++ newline ++ raw_text it.

Fixpoint save_items (topic : str) (items : list item) (db : database)
  : result database :=
  match items with
  | [] => Ok db
  | it :: rest =>
      db' <- save_result topic (item_title it) (item_link it)
               (content_of it) db ;;
      save_items topic rest db'
  end.

(** Lines 267 to 338: what the Search button does. *)
Definition find_programs (topic : str) (f : filters) (num_results : Z)
    (db : database) : result (outcome * database) :=
  if negb (truthy (strip topic)) then Ok (TopicMissing, db)
  else
    '(log, search_results) <- search_web topic f num_results ;;
    if negb (truthy search_results) then Ok (ZeroSearchResults, db)
    else
      items <- validate_hits f search_results [] ;;
      if negb (truthy items) then Ok (NoPageMatched, db)
      else
        db' <- save_items topic items db ;;
        Ok (Showing items, db').

End Pipeline.

(** ** A reader of the tag block *)

Record tags := {
  tag_type : str;
  tag_mode : str;
  tag_cost : str;
  tag_country : str;
  tag_region : str
}.

(** The text before the first occurrence of [c], and the text after it. *)
Fixpoint read_until (c : N) (s : str) : option (str * str) :=
  match s with
  | [] => None
  | x :: s' =>
      if N.eqb x c then Some ([], s')
      else
        match read_until c s' with
        | Some (before, after) => Some (x :: before, after)
        | None => None
        end
  end.

Definition expect (p s : str) : option str :=
  if startswith p s then Some (skipn (List.length p) s) else None.

(** One bracketed field [[NAME:value]] at the head of [s]. *)
Definition read_tag (name : str) (s : str) : option (str * str) :=
  match expect (lit "[" ++ name ++ lit ":") s with
  | Some s' => read_until 93%N s'
  | None => None
  end.

(** Modelled from the spec: the repository only writes the content string;
    the reader section 6 of the specification speaks of, which is given the
    content alone and parses the bracketed prefix up to the first newline,
    is absent from it. *)
Definition parse_tags (content : str) : option tags :=
  match read_until 10%N content with
  | None => None
  | Some (header, _) =>
      match read_tag (lit "TYPE") header with
      | None => None
      | Some (ty, s1) =>
      match read_tag (lit "MODE") s1 with
      | None => None
      | Some (mo, s2) =>
      match read_tag (lit "COST") s2 with
      | None => None
      | Some (co, s3) =>
      match read_tag (lit "COUNTRY") s3 with
      | None => None
      | Some (cn, s4) =>
      match read_tag (lit "REGION") s4 with
      | None => None
      | Some (rg, s5) =>
          if truthy s5 then None
          else Some {| tag_type := ty; tag_mode := mo; tag_cost := co;
                       tag_country := cn; tag_region := rg |}
      end end end end end
  end.

(** The country and region menus of the page. *)
Definition COUNTRY_REGIONS : list (str * list str) :=
  [ (lit "Any", [lit "Any"]);
    (lit "Australia",
     [lit "Any"; lit "Melbourne"; lit "Sydney"; lit "Brisbane"; lit "Perth";
      lit "Adelaide"]);
    (lit "United States",
     [lit "Any"; lit "New York"; lit "Los Angeles"; lit "Chicago";
      lit "San Francisco"]);
    (lit "United Kingdom",
     [lit "Any"; lit "London"; lit "Manchester"; lit "Birmingham"]);
    (lit "Canada", [lit "Any"; lit "Toronto"; lit "Vancouver"; lit "Montreal"]);
    (lit "India",
     [lit "Any"; lit "Mumbai"; lit "Delhi"; lit "Bengaluru"; lit "Chennai"]) ].

(** A pair the two select boxes can produce. *)
Definition selectable (country region : str) : Prop :=
  exists regions, In (country, regions) COUNTRY_REGIONS /\ In region regions.

(** A value that can stand inside a tag: no closing bracket, no newline. *)
Definition tag_safe (s : str) : bool :=
  forallb (fun c => negb (N.eqb c 93) && negb (N.eqb c 10))%N s.

(** ** Vocabulary of the statements *)

(** [w] occurs in [s] as a contiguous run. *)
Definition occurs (w s : str) : Prop := exists a b, s = a ++ w ++ b.

(** Some keyword of the group occurs in [t]. *)
Definition matches (kws : list str) (t : str) : Prop :=
  exists w, In w kws /\ occurs w t.

(** The keyword groups of the three classifiers, in priority order, as the
    specification lists them. *)
Definition TYPE_GROUPS : list (list str * str) :=
  [ ([lit "webinar"; lit "seminar"; lit "workshop"], lit "Seminar / Workshop");
    ([lit "video"; lit "youtube"; lit "lecture"], lit "Video / Lecture");
    ([lit "course"; lit "short course"; lit "bootcamp"; lit "mooc"],
     lit "Course") ].

Definition MODE_GROUPS : list (list str * str) :=
  [ ([lit "online"; lit "virtual"; lit "remote"; lit "self-paced"],
     lit "Online");
    ([lit "campus"; lit "in-person"; lit "on campus"; lit "classroom";
      lit "venue"], lit "In-person") ].

Definition COST_GROUPS : list (list str * str) :=
  [ ([lit "free"; lit "no cost"], lit "Free");
    ([lit "$"; lit "aud"; lit "fee"; lit "per month"; lit "per year"],
     lit "Paid / Unknown") ].

(** First match wins: the label of the first group with a keyword in [t]. *)
Fixpoint first_match (groups : list (list str * str)) (default t : str) : str :=
  match groups with
  | [] => default
  | (kws, label) :: rest =>
      if any (fun w => str_in w t) kws then label
      else first_match rest default t
  end.

(** The outcome of one candidate in [search_web]: a search that raises
    counts as an empty list. *)
Definition candidate_result {W : World} (query : str) (max_results : Z)
  : list hit :=
  match _run_serpapi_query query max_results with
  | Ok results => results
  | Raise _ => []
  end.

(** What one candidate adds to the log: the search, and the report of the
    error when the search raised. *)
Definition candidate_log {W : World} (query : str) (max_results : Z)
  : list event :=
  Queried query max_results ::
  match _run_serpapi_query query max_results with
  | Ok _ => []
  | Raise e => [StError (lit "Search error: " ++ exn_str e)]
  end.

(** [s.endswith(suffix)], as a proposition. *)
Definition ends_with (s suffix : str) : Prop := exists before, s = before ++ suffix.

(** The filters [f] with another region. *)
Definition with_region (f : filters) (region : str) : filters := {|
  ftype := ftype f;
  fmode := fmode f;
  fcost := fcost f;
  fcountry := fcountry f;
  fregion := region
|}.

(** The ids of the rows, in insertion order. *)
Definition ids (rs : list row) : list Z := map id rs.

(** The state a file is in when only [database.py] has written to it: ids
    grow along the insertion order, are positive, and none exceeds the
    largest id handed out. *)
Definition wf_table (t : table) : Prop :=
  StronglySorted Z.lt (ids (rows t))
  /\ Forall (fun i => 0 < i <= seq t) (ids (rows t))
  /\ 0 <= seq t.

Definition wf (db : database) : Prop :=
  match db with
  | None => True
  | Some t => wf_table t
  end.

(** The tag block written in front of the raw text. *)
Definition tag_block (ty mo co cn rg : str) : str :=
  lit "[TYPE:" ++ ty ++ lit "][MODE:" ++ mo ++ lit "][COST:" ++ co
  ++ lit "][COUNTRY:" ++ cn ++ lit "][REGION:" ++ rg ++ lit "]".

(** No code point of [s] is [c]. *)
Definition lacks (c : N) (s : str) : bool :=
  forallb (fun x => negb (N.eqb x c)) s.

(** The file right after [create_database] ran on an empty file. *)
Definition empty_results : database := Some {| rows := []; seq := 0 |}.

(** The tags an item is stored with. *)
Definition tags_of (it : item) : tags := {|
  tag_type := item_type it;
  tag_mode := item_mode it;
  tag_cost := item_cost it;
  tag_country := item_country it;
  tag_region := item_region it
|}.

(** What first match wins means for a classifier output [out] on the
    lower-cased text [t]: of two matching groups the earlier one decides,
    provided no group before it matches; in general the first matching group
    decides; and when no group matches the default is returned. *)
Definition priority_law (groups : list (list str * str)) (default t out : str)
  : Prop :=
  (forall pre g1 mid g2 post,
      groups = pre ++ g1 :: mid ++ g2 :: post ->
      matches (fst g1) t -> matches (fst g2) t ->
      (forall g, In g pre -> ~ matches (fst g) t) ->
      out = snd g1)
  /\ (forall pre g post,
      groups = pre ++ g :: post ->
      matches (fst g) t ->
      (forall g', In g' pre -> ~ matches (fst g') t) ->
      out = snd g)
  /\ ((forall g, In g groups -> ~ matches (fst g) t) -> out = default).

(** ** Worlds to run the model in *)

Definition robotics_entry : organic_result := {|
  r_title := Some (lit "Kids Robotics Course");
  r_link := Some (lit "http://x");
  r_snippet := Some (lit "Free online robotics course for children")
|}.

Definition bare_entry : organic_result := {|
  r_title := Some (lit "Workshop in Melbourne");
  r_link := Some (lit "http://y");
  r_snippet := None
|}.

Definition robotics_words : list str :=
  [lit "Free"; lit "online"; lit "robotics"; lit "course"; lit "for";
   lit "children"].

(** Every search returns two entries, every page is fetched; the second
    page cannot be fetched. *)
Definition steady_world (key : str) : World := {|
  API_KEY := key;
  GoogleSearch_get_dict := fun _ =>
    Ok {| organic_results := Some [robotics_entry; bare_entry] |};
  page_words := fun url =>
    if str_eqb url (lit "http://y")
    then Raise {| exn_str := lit "404 Client Error" |}
    else Ok robotics_words
|}.

(** A search that mentions Melbourne times out, one that mentions Australia
    finds nothing, any other finds the two entries. *)
Definition relaxing_world : World := {|
  API_KEY := lit "0123abcd";
  GoogleSearch_get_dict := fun p =>
    if str_in (lit "Melbourne") (q p) then
      Raise {| exn_str := lit "timed out" |}
    else if str_in (lit "Australia") (q p) then
      Ok {| organic_results := None |}
    else Ok {| organic_results := Some [robotics_entry; bare_entry] |};
  page_words := fun _ => Ok robotics_words
|}.

Definition any_filters (country region : str) : filters := {|
  ftype := lit "Any";
  fmode := lit "Any";
  fcost := lit "Any";
  fcountry := country;
  fregion := region
|}.

(** ** Showing the accepted items and the saved rows *)

(** [l[i:j]]: negative indices count from the end, and both ends are
    clamped to the list. *)
Definition slice {A : Type} (l : list A) (i j : Z) : list A :=
  let n := Z.of_nat (List.length l) in
  let i' := if i <? 0 then Z.max 0 (i + n) else Z.min i n in
  let j' := if j <? 0 then Z.max 0 (j + n) else Z.min j n in
  firstn (Z.to_nat (j' - i')) (skipn (Z.to_nat i') l).

(** [range(0, stop, step)] for a positive [step]. *)
Definition range_step (stop step : Z) : list Z :=
  map (fun k => Z.of_nat k * step)
    (List.seq 0%nat (Z.to_nat ((stop + step - 1) / step))).

Definition cards_per_row : Z := 3.

(** Lines 342 to 345: the rows of cards, [items[i:i + cards_per_row]] for
    [i] in [range(0, len(items), cards_per_row)]; each row is given
    [len(row_items)] columns. *)
Definition card_rows (items : list item) : list (list item) :=
  map (fun i => slice items i (i + cards_per_row))
    (range_step (Z.of_nat (List.length items)) cards_per_row).

(** Lines 361 to 366: the page "Saved Results" shows a notice when there is
    no row and the table of all rows otherwise. *)
Inductive saved_view :=
| NoDataSaved
| SavedTable (rows : list row).

Definition saved_results_page (db : database) : result saved_view :=
  rows <- get_results db ;;
  if negb (truthy rows) then Ok NoDataSaved else Ok (SavedTable rows).

(** ** More vocabulary *)

(** The hit made of one entry of [organic_results]. *)
Definition to_hit (r : organic_result) : hit := {|
  title := dict_get (r_title r) [];
  link := dict_get (r_link r) [];
  snippet := dict_get (r_snippet r) []
|}.

Definition has_link (r : organic_result) : bool :=
  truthy (dict_get (r_link r) []).

(** The item a hit contributes to the accepted list, if any. *)
Definition accepted_items {B : PyBuiltins} {W : World} (f : filters) (r : hit)
  : list item :=
  match validate_hit f r with
  | Ok (Some it) => [it]
  | _ => []
  end.

(** The searches recorded in a log, in order. *)
Fixpoint queries_of (log : list event) : list str :=
  match log with
  | [] => []
  | Queried query _ :: rest => query :: queries_of rest
  | StError _ :: rest => queries_of rest
  end.

(** The filter [wanted] lets the label [got] through. *)
Definition filter_allows (wanted got : str) : Prop :=
  wanted = lit "Any" \/ got = wanted.

(** * Properties *)

(** ** Strings *)

Lemma str_eqb_eq (a b : str) : str_eqb a b = true <-> a = b.
Proof.
  revert b; induction a as [|x a IH]; intros [|y b]; simpl;
    try (split; [discriminate | discriminate]); try tauto.
  rewrite andb_true_iff, N.eqb_eq, IH.
  split; [intros [-> ->]; reflexivity | intros E; injection E; auto].
Qed.

Lemma str_eqb_refl (a : str) : str_eqb a a = true.
Proof. apply str_eqb_eq; reflexivity. Qed.

Lemma str_eqb_neq (a b : str) : str_eqb a b = false <-> a <> b.
Proof.
  rewrite <- str_eqb_eq. destruct (str_eqb a b); split; congruence.
Qed.

Lemma startswith_spec (p s : str) :
  startswith p s = true <-> exists t, s = p ++ t.
Proof.
  revert s; induction p as [|x p IH]; intros s; simpl.
  - split; [intros _; exists s; reflexivity | reflexivity].
  - destruct s as [|y s].
    + split; [discriminate | intros [t E]; discriminate].
    + rewrite andb_true_iff, N.eqb_eq, IH. split.
      * intros [-> [t ->]]. exists t. reflexivity.
      * intros [t E]. injection E as -> ->. split; [reflexivity | eauto].
Qed.

Lemma str_in_spec (p s : str) : str_in p s = true <-> occurs p s.
Proof.
  unfold occurs. induction s as [|y s IH]; simpl.
  - rewrite orb_false_r, startswith_spec. split.
    + intros [t E]. exists [], t. exact E.
    + intros [a [b E]]. destruct a; simpl in E.
      * exists b. exact E.
      * discriminate.
  - rewrite orb_true_iff, startswith_spec, IH. split.
    + intros [[t E] | [a [b E]]].
      * exists [], t. exact E.
      * exists (y :: a), b. simpl. rewrite E. reflexivity.
    + intros [[|x a] [b E]]; simpl in E.
      * left. exists b. exact E.
      * right. injection E as _ E. exists a, b. exact E.
Qed.

Lemma str_in_false (p s : str) : str_in p s = false <-> ~ occurs p s.
Proof.
  rewrite <- str_in_spec. destruct (str_in p s); split; congruence.
Qed.

Lemma any_matches (kws : list str) (t : str) :
  any (fun w => str_in w t) kws = true <-> matches kws t.
Proof.
  unfold any, matches. rewrite existsb_exists.
  split; intros [w [Hin Hw]]; exists w; split; auto; apply str_in_spec; auto.
Qed.

Lemma any_matches_false (kws : list str) (t : str) :
  any (fun w => str_in w t) kws = false <-> ~ matches kws t.
Proof.
  rewrite <- any_matches.
  destruct (any (fun w => str_in w t) kws); split; congruence.
Qed.

Lemma slice_to_length {A : Type} (l : list A) (n : Z) :
  0 <= n -> Z.of_nat (List.length (slice_to l n)) <= n.
Proof.
  intros Hn. unfold slice_to.
  destruct (Z.leb_spec 0 n); [|lia].
  rewrite length_firstn. lia.
Qed.

Lemma slice_to_prefix {A : Type} (l : list A) (n : Z) :
  exists rest, l = slice_to l n ++ rest.
Proof.
  unfold slice_to. destruct (0 <=? n).
  - exists (skipn (Z.to_nat n) l). symmetry. apply firstn_skipn.
  - exists (skipn (List.length l - Z.to_nat (- n)) l).
    symmetry. apply firstn_skipn.
Qed.

Lemma slice_to_short {A : Type} (l : list A) (n : Z) :
  Z.of_nat (List.length l) <= n -> slice_to l n = l.
Proof.
  intros H. unfold slice_to. destruct (Z.leb_spec 0 n); [|lia].
  apply firstn_all2. lia.
Qed.

(** ** The ASCII instance satisfies the laws *)

Lemma ascii_lower_fixed (w : str) :
  forallb lower_fixed w = true -> map ascii_lower_cp w = w.
Proof.
  induction w as [|c w IH]; simpl; [reflexivity|].
  rewrite andb_true_iff. intros [Hc Hw]. rewrite IH by exact Hw.
  unfold lower_fixed in Hc. unfold ascii_lower_cp.
  apply andb_true_iff in Hc as [_ Hc]. apply negb_true_iff in Hc.
  rewrite Hc. reflexivity.
Qed.

#[export] Instance ascii_builtins_laws : PyBuiltinsLaws ascii_builtins.
Proof.
  split.
  - reflexivity.
  - intros w s Hw Hin. simpl. apply str_in_spec.
    apply str_in_spec in Hin as [a [b ->]].
    exists (map ascii_lower_cp a), (map ascii_lower_cp b).
    rewrite !map_app, (ascii_lower_fixed w Hw). reflexivity.
Defined.

(** ** The text classifiers *)

Lemma first_match_wins groups default t pre g post :
  groups = pre ++ g :: post ->
  matches (fst g) t ->
  (forall g', In g' pre -> ~ matches (fst g') t) ->
  first_match groups default t = snd g.
Proof.
  intros -> Hg. induction pre as [|[kws label] pre IH]; intros Hpre; simpl.
  - destruct g as [kws label]. simpl in *.
    apply any_matches in Hg. rewrite Hg. reflexivity.
  - assert (Hno : any (fun w => str_in w t) kws = false).
    { apply any_matches_false. apply (Hpre (kws, label)). left. reflexivity. }
    rewrite Hno. apply IH. intros g' Hin. apply Hpre. right. exact Hin.
Qed.

Lemma first_match_default groups default t :
  (forall g, In g groups -> ~ matches (fst g) t) ->
  first_match groups default t = default.
Proof.
  induction groups as [|[kws label] groups IH]; intros Hno; simpl.
  - reflexivity.
  - assert (H : any (fun w => str_in w t) kws = false).
    { apply any_matches_false. apply (Hno (kws, label)). left. reflexivity. }
    rewrite H. apply IH. intros g Hin. apply Hno. right. exact Hin.
Qed.

Lemma first_match_priority groups default t :
  priority_law groups default t (first_match groups default t).
Proof.
  repeat split.
  - intros pre g1 mid g2 post E H1 _ Hpre.
    apply (first_match_wins _ _ _ pre g1 (mid ++ g2 :: post)); assumption.
  - intros pre g post E Hg Hpre.
    apply (first_match_wins _ _ _ pre g post); assumption.
  - apply first_match_default.
Qed.

Section ClassifierProps.
Context {B : PyBuiltins}.

Lemma is_educational_spec (text : str) :
  is_educational text = true <-> matches EDU_KEYWORDS (lower text).
Proof. unfold is_educational. apply any_matches. Qed.

Lemma classify_type_first_match (text : str) :
  classify_type text
  = first_match TYPE_GROUPS (lit "Article / Other") (lower text).
Proof.
  unfold classify_type, TYPE_GROUPS.
  cbn [first_match]. unfold any. cbn [existsb].
  rewrite ?orb_false_r, ?orb_assoc. reflexivity.
Qed.

Lemma classify_mode_first_match (text : str) :
  classify_mode text = first_match MODE_GROUPS (lit "Unknown") (lower text).
Proof.
  unfold classify_mode, MODE_GROUPS.
  cbn [first_match]. unfold any. cbn [existsb].
  rewrite ?orb_false_r, ?orb_assoc. reflexivity.
Qed.

Lemma classify_cost_first_match (text : str) :
  classify_cost text = first_match COST_GROUPS (lit "Unknown") (lower text).
Proof.
  unfold classify_cost, COST_GROUPS.
  cbn [first_match]. unfold any. cbn [existsb].
  rewrite ?orb_false_r, ?orb_assoc. reflexivity.
Qed.

Lemma occurs_lower {L : PyBuiltinsLaws B} (w text : str) :
  forallb lower_fixed w = true -> occurs w text -> occurs w (lower text).
Proof.
  intros Hw H. apply str_in_spec. apply lower_keeps; [exact Hw|].
  apply str_in_spec. exact H.
Qed.

(** C2. [is_educational text] is true exactly when one of the sixteen
    keywords of [EDU_KEYWORDS] occurs in the lower-cased text, and the empty
    text is not educational. *)
Theorem is_educational_iff_keyword {L : PyBuiltinsLaws B} :
  EDU_KEYWORDS
  = map lit
      ["course"; "class"; "workshop"; "training"; "tutorial"; "webinar";
       "lecture"; "program"; "degree"; "diploma"; "certificate"; "bootcamp";
       "seminar"; "learn"; "education"; "study"]%string
  /\ List.length EDU_KEYWORDS = 16%nat
  /\ (forall text,
         is_educational text = true
         <-> exists kw, In kw EDU_KEYWORDS /\ occurs kw (lower text))
  /\ is_educational [] = false.
Proof.
  split; [reflexivity|]. split; [reflexivity|]. split.
  - intros text. apply is_educational_spec.
  - unfold is_educational. rewrite lower_empty. reflexivity.
Qed.

(** C3. Each of [classify_type], [classify_mode] and [classify_cost] is the
    first-match-wins function of its ordered keyword groups: of two
    matching groups the one of higher priority gives the label, a text that
    matches no group gets the default ([Article / Other], [Unknown],
    [Unknown]), and a text containing both [webinar] and [course] is a
    [Seminar / Workshop]. *)
Theorem classify_first_match_wins {L : PyBuiltinsLaws B} (text : str) :
  priority_law TYPE_GROUPS (lit "Article / Other") (lower text)
    (classify_type text)
  /\ priority_law MODE_GROUPS (lit "Unknown") (lower text)
       (classify_mode text)
  /\ priority_law COST_GROUPS (lit "Unknown") (lower text)
       (classify_cost text)
  /\ (occurs (lit "webinar") text -> occurs (lit "course") text ->
      classify_type text = lit "Seminar / Workshop").
Proof.
  split; [|split; [|split]].
  - rewrite classify_type_first_match. apply first_match_priority.
  - rewrite classify_mode_first_match. apply first_match_priority.
  - rewrite classify_cost_first_match. apply first_match_priority.
  - intros Hw _. rewrite classify_type_first_match.
    apply (first_match_wins TYPE_GROUPS _ _ []
             ([lit "webinar"; lit "seminar"; lit "workshop"],
              lit "Seminar / Workshop")
             (tl TYPE_GROUPS)).
    + reflexivity.
    + exists (lit "webinar"). split; [left; reflexivity|].
      apply occurs_lower; [reflexivity | exact Hw].
    + intros g [].
Qed.

(** C4. [matches_location] is true whenever the country is [Any]; with a
    country and region [Any] it is true exactly when the lower-cased country
    occurs in the lower-cased text; with both set it is true exactly when
    the lower-cased country or the lower-cased region occurs there, so a
    text that mentions the region alone matches. *)
Theorem matches_location_rules (text country region : str) :
  (country = lit "Any" -> matches_location text country region = true)
  /\ (country <> lit "Any" -> region = lit "Any" ->
      (matches_location text country region = true
       <-> occurs (lower country) (lower text)))
  /\ (country <> lit "Any" -> region <> lit "Any" ->
      (matches_location text country region = true
       <-> occurs (lower country) (lower text)
           \/ occurs (lower region) (lower text)))
  /\ (country <> lit "Any" -> region <> lit "Any" ->
      occurs (lower region) (lower text) ->
      ~ occurs (lower country) (lower text) ->
      matches_location text country region = true).
Proof.
  unfold matches_location. split; [|split; [|split]].
  - intros ->. rewrite str_eqb_refl. reflexivity.
  - intros Hc ->. apply str_eqb_neq in Hc. rewrite Hc, str_eqb_refl.
    apply str_in_spec.
  - intros Hc Hr. apply str_eqb_neq in Hc, Hr. rewrite Hc, Hr.
    rewrite orb_true_iff, !str_in_spec. tauto.
  - intros Hc Hr Hreg _. apply str_eqb_neq in Hc, Hr. rewrite Hc, Hr.
    apply orb_true_iff. right. apply str_in_spec. exact Hreg.
Qed.

End ClassifierProps.

(** ** The search step *)

Lemma join_snoc (sep : str) (parts : list str) (x : str) :
  parts <> [] -> join sep (parts ++ [x]) = join sep parts ++ sep ++ x.
Proof.
  induction parts as [|p ps IH]; intros Hne; [congruence|].
  destruct ps as [|p' ps].
  - reflexivity.
  - change (join sep ((p :: p' :: ps) ++ [x]))
      with (p ++ sep ++ join sep ((p' :: ps) ++ [x])).
    rewrite IH by discriminate.
    change (join sep (p :: p' :: ps)) with (p ++ sep ++ join sep (p' :: ps)).
    rewrite <- !app_assoc. reflexivity.
Qed.

Section SearchProps.
Context {W : World}.

Lemma collect_hits_app (organic : list organic_result) (results : list hit) :
  collect_hits organic results = results ++ collect_hits organic [].
Proof.
  revert results. induction organic as [|r rest IH]; intros results; simpl.
  - rewrite app_nil_r. reflexivity.
  - destruct (truthy (dict_get (r_link r) [])).
    + rewrite IH. rewrite (IH [_]). rewrite <- app_assoc. reflexivity.
    + apply IH.
Qed.

Lemma collect_hits_length (organic : list organic_result) :
  (List.length (collect_hits organic []) <= List.length organic)%nat.
Proof.
  induction organic as [|r rest IH]; simpl; [lia|].
  destruct (truthy (dict_get (r_link r) [])).
  - rewrite collect_hits_app. rewrite length_app. simpl. lia.
  - lia.
Qed.

Lemma collect_hits_links (organic : list organic_result) (h : hit) :
  In h (collect_hits organic []) -> link h <> [].
Proof.
  induction organic as [|r rest IH]; simpl; [tauto|].
  destruct (dict_get (r_link r) []) as [|c l] eqn:E; simpl.
  - exact IH.
  - rewrite collect_hits_app. intros [Hin | Hin]%in_app_or.
    + destruct Hin as [<- | []]. simpl. discriminate.
    + apply IH. exact Hin.
Qed.

Lemma run_serpapi_query_capped (query : str) (max_results : Z) :
  0 <= max_results ->
  Z.of_nat (List.length (candidate_result query max_results)) <= max_results.
Proof.
  intros Hn. unfold candidate_result, _run_serpapi_query, bind.
  destruct (GoogleSearch_get_dict _) as [data | e]; simpl; [|lia].
  pose proof (collect_hits_length
                (slice_to (dict_get (organic_results data) []) max_results)).
  pose proof (slice_to_length (dict_get (organic_results data) [])
                max_results Hn).
  lia.
Qed.

Lemma search_loop_step (parts : list str) (rest : list (list str)) (n : Z) :
  search_loop (parts :: rest) n
  = let query := join (lit " ") parts in
    if truthy (candidate_result query n) then
      Ok (candidate_log query n, candidate_result query n)
    else
      '(log', found) <- search_loop rest n ;;
      Ok (candidate_log query n ++ log', found).
Proof.
  cbn [search_loop]. unfold candidate_result, candidate_log, try_except, bind.
  cbv zeta.
  destruct (_run_serpapi_query (join (lit " ") parts) n) as [rs | e];
    reflexivity.
Qed.

Lemma search_loop_empty (tries : list (list str)) (n : Z) :
  (forall parts, In parts tries ->
                 candidate_result (join (lit " ") parts) n = []) ->
  search_loop tries n
  = Ok (flat_map (fun parts => candidate_log (join (lit " ") parts) n) tries,
        []).
Proof.
  induction tries as [|parts rest IH]; intros Hall; [reflexivity|].
  rewrite search_loop_step. cbv zeta.
  rewrite (Hall parts) by (left; reflexivity). simpl truthy. cbv iota.
  rewrite IH by (intros p Hp; apply Hall; right; exact Hp).
  reflexivity.
Qed.

Lemma search_loop_first (pre : list (list str)) (parts : list str)
    (post : list (list str)) (n : Z) :
  (forall p, In p pre -> candidate_result (join (lit " ") p) n = []) ->
  candidate_result (join (lit " ") parts) n <> [] ->
  search_loop (pre ++ parts :: post) n
  = Ok (flat_map (fun p => candidate_log (join (lit " ") p) n) (pre ++ [parts]),
        candidate_result (join (lit " ") parts) n).
Proof.
  intros Hpre Hparts. induction pre as [|p pre IH].
  - simpl app. rewrite search_loop_step. cbv zeta.
    destruct (candidate_result (join (lit " ") parts) n) eqn:E; [congruence|].
    simpl. rewrite app_nil_r. reflexivity.
  - simpl app. rewrite search_loop_step. cbv zeta.
    rewrite (Hpre p) by (left; reflexivity). simpl truthy. cbv iota.
    rewrite IH by (intros p' Hp'; apply Hpre; right; exact Hp').
    reflexivity.
Qed.

Lemma search_loop_total (tries : list (list str)) (n : Z) :
  exists log found, search_loop tries n = Ok (log, found).
Proof.
  induction tries as [|parts rest IH]; [eexists; eexists; reflexivity|].
  rewrite search_loop_step. cbv zeta.
  destruct (truthy _); [eexists; eexists; reflexivity|].
  destruct IH as [log [found ->]]. eexists; eexists; reflexivity.
Qed.

Lemma base_parts_nonempty (topic : str) (f : filters) : base_parts topic f <> [].
Proof.
  unfold base_parts.
  repeat match goal with
         | |- context [if ?b then _ else _] => destruct b
         end; discriminate.
Qed.

Lemma tries_any_country (topic : str) (f : filters) :
  fcountry f = lit "Any" -> tries topic f = [base_parts topic f].
Proof.
  intros E. unfold tries. rewrite E, str_eqb_refl. reflexivity.
Qed.

Lemma tries_country_only (topic : str) (f : filters) :
  fcountry f <> lit "Any" -> fregion f = lit "Any" ->
  tries topic f = [base_parts topic f ++ [fcountry f]; base_parts topic f].
Proof.
  intros Hc Hr. unfold tries. apply str_eqb_neq in Hc.
  rewrite Hc, Hr, str_eqb_refl. reflexivity.
Qed.

Lemma tries_country_region (topic : str) (f : filters) :
  fcountry f <> lit "Any" -> fregion f <> lit "Any" ->
  tries topic f
  = [base_parts topic f ++ [fcountry f; fregion f];
     base_parts topic f ++ [fcountry f];
     base_parts topic f].
Proof.
  intros Hc Hr. unfold tries. apply str_eqb_neq in Hc, Hr.
  rewrite Hc, Hr. reflexivity.
Qed.

End SearchProps.

Lemma flat_map_of_map {A B C : Type} (g : B -> list C) (f : A -> B)
    (l : list A) :
  flat_map g (map f l) = flat_map (fun x => g (f x)) l.
Proof.
  induction l as [|x l IH]; simpl; [reflexivity|]. rewrite IH. reflexivity.
Qed.

Lemma search_loop_found {W : World} (tries : list (list str)) (n : Z)
    (log : list event) (found : list hit) :
  search_loop tries n = Ok (log, found) ->
  found = []
  \/ exists parts, In parts tries
                   /\ found = candidate_result (join (lit " ") parts) n.
Proof.
  revert log found. induction tries as [|parts rest IH]; intros log found.
  - simpl. intros E. injection E as _ <-. left. reflexivity.
  - rewrite search_loop_step. cbv zeta.
    destruct (truthy (candidate_result (join (lit " ") parts) n)).
    + intros E. injection E as _ <-. right. exists parts.
      split; [left|]; reflexivity.
    + destruct (search_loop rest n) as [[log' found'] | e] eqn:E';
        simpl; [|discriminate].
      intros E. injection E as _ <-.
      destruct (IH _ _ eq_refl) as [-> | [p [Hin ->]]]; [left; reflexivity|].
      right. exists p. split; [right; exact Hin | reflexivity].
Qed.

(** C1, amended.  Unless the configured key is the placeholder
    [YOUR_SERPAPI_KEY_HERE], [search_web] tries the candidate queries in
    their order, counts a search that raises as empty and reports it, stops
    at the first candidate with a non-empty result and returns that result;
    when every candidate is empty it returns the empty list.  With the
    placeholder key no search is made and the empty list is returned.  In
    every case [search_web] returns and does not raise, and for a cap
    [N >= 0] it returns at most [N] hits. *)
Theorem search_web_first_nonempty {W : World} (topic : str) (f : filters)
    (N : Z) :
  (API_KEY <> lit "YOUR_SERPAPI_KEY_HERE" ->
   (forall pre query post,
       query_candidates topic f = pre ++ query :: post ->
       (forall q', In q' pre -> candidate_result q' N = []) ->
       candidate_result query N <> [] ->
       search_web topic f N
       = Ok (flat_map (fun q' => candidate_log q' N) (pre ++ [query]),
             candidate_result query N))
   /\ ((forall q', In q' (query_candidates topic f) ->
                   candidate_result q' N = []) ->
       search_web topic f N
       = Ok (flat_map (fun q' => candidate_log q' N)
               (query_candidates topic f), [])))
  /\ (API_KEY = lit "YOUR_SERPAPI_KEY_HERE" ->
      search_web topic f N
      = Ok ([StError (lit "Set your SerpAPI key in app.py (API_KEY).")], []))
  /\ (exists log found, search_web topic f N = Ok (log, found))
  /\ (0 <= N -> forall log found,
        search_web topic f N = Ok (log, found) ->
        Z.of_nat (List.length found) <= N).
Proof.
  unfold search_web, query_candidates. split; [|split; [|split]].
  - intros Hkey. apply str_eqb_neq in Hkey. rewrite Hkey. split.
    + intros pre query post E Hpre Hq.
      apply map_eq_app in E as [pre' [rest [Etries [Epre Erest]]]].
      apply map_eq_cons in Erest as [parts [post' [-> [Eq Epost]]]].
      subst pre query. rewrite Etries.
      rewrite search_loop_first.
      * rewrite <- flat_map_of_map with (g := fun q' => candidate_log q' N).
        rewrite map_app. reflexivity.
      * intros p Hp. apply Hpre. apply in_map. exact Hp.
      * exact Hq.
    + intros Hall. rewrite search_loop_empty.
      * rewrite flat_map_of_map. reflexivity.
      * intros p Hp. apply Hall. apply in_map. exact Hp.
  - intros ->. rewrite str_eqb_refl. reflexivity.
  - destruct (str_eqb API_KEY _); [eexists; eexists; reflexivity|].
    apply search_loop_total.
  - intros HN log found. destruct (str_eqb API_KEY _).
    + intros E. injection E as _ <-. simpl. exact HN.
    + intros E. apply search_loop_found in E as [-> | [p [_ ->]]].
      * simpl. exact HN.
      * apply run_serpapi_query_capped. exact HN.
Qed.

Lemma search_web_first_nonempty_witness :
  let W := relaxing_world in
  let topic := lit "robotics for kids" in
  let f := any_filters (lit "Australia") (lit "Melbourne") in
  exists q1 q2 q3,
    query_candidates topic f = [q1; q2; q3]
    /\ candidate_result q1 8 = []
    /\ candidate_result q2 8 = []
    /\ candidate_result q3 8 <> []
    /\ search_web topic f 8
       = Ok (flat_map (fun q' => candidate_log q' 8) [q1; q2; q3],
             candidate_result q3 8)
    /\ Z.of_nat (List.length (candidate_result q3 8)) <= 8.
Proof.
  intros W topic f.
  destruct (search_web_first_nonempty (W := W) topic f 8)
    as [Hrun [_ [_ Hcap]]].
  assert (Hkey : @API_KEY W <> lit "YOUR_SERPAPI_KEY_HERE")
    by (vm_compute; discriminate).
  destruct (Hrun Hkey) as [Hfirst _].
  exists (join (lit " ") (base_parts topic f ++ [lit "Australia"; lit "Melbourne"])),
    (join (lit " ") (base_parts topic f ++ [lit "Australia"])),
    (join (lit " ") (base_parts topic f)).
  split; [reflexivity|].
  split; [vm_compute; reflexivity|].
  split; [vm_compute; reflexivity|].
  split; [vm_compute; discriminate|].
  split.
  - apply (Hfirst [_; _] _ []).
    + reflexivity.
    + intros q' [<- | [<- | []]]; vm_compute; reflexivity.
    + vm_compute; discriminate.
  - apply (Hcap ltac:(lia) (flat_map (fun q' => candidate_log q' 8)
        [join (lit " ") (base_parts topic f ++ [lit "Australia"; lit "Melbourne"]);
         join (lit " ") (base_parts topic f ++ [lit "Australia"]);
         join (lit " ") (base_parts topic f)])).
    vm_compute. reflexivity.
Defined.

(** C1 as stated fails when the key is the placeholder: the first candidate
    has two hits to offer, and [search_web] returns none without searching. *)
Lemma search_web_placeholder_key_counterexample :
  let W := steady_world (lit "YOUR_SERPAPI_KEY_HERE") in
  let topic := lit "robotics for kids" in
  let f := any_filters (lit "Any") (lit "Any") in
  (exists query,
      query_candidates topic f = [query]
      /\ List.length (candidate_result query 8) = 2%nat
      /\ search_web topic f 8
         = Ok ([StError (lit "Set your SerpAPI key in app.py (API_KEY).")], []))
  /\ ~ (forall pre query post,
           query_candidates topic f = pre ++ query :: post ->
           (forall q', In q' pre -> candidate_result q' 8 = []) ->
           candidate_result query 8 <> [] ->
           exists log, search_web topic f 8 = Ok (log, candidate_result query 8)).
Proof.
  intros W topic f. split.
  - exists (join (lit " ") (base_parts topic f)).
    split; [reflexivity|]. split; reflexivity.
  - intros H.
    destruct (H [] (join (lit " ") (base_parts topic f)) []) as [log E].
    + reflexivity.
    + intros q' [].
    + vm_compute. discriminate.
    + vm_compute in E. discriminate.
Qed.

(** ** The query builder *)

Lemma deref_old (h fresh : heap) (r : ref) :
  (r < List.length h)%nat -> deref (h ++ fresh) r = deref h r.
Proof. intros Hr. unfold deref. apply app_nth1. exact Hr. Qed.

Lemma deref_new (h rest : heap) (l : list str) :
  deref (h ++ l :: rest) (List.length h) = l.
Proof. unfold deref. apply nth_middle. Qed.

Lemma store_last (h : heap) (l l' : list str) :
  store (List.length h) l' (h ++ [l]) = h ++ [l'].
Proof. induction h as [|x h IH]; simpl; [reflexivity|]. rewrite IH. reflexivity. Qed.

Lemma list_append_last (h : heap) (l : list str) (x : str) :
  list_append (List.length h) x (h ++ [l]) = h ++ [l ++ [x]].
Proof. unfold list_append. rewrite deref_new. apply store_last. Qed.

(** On the heap, the filters extend the one object [base_parts] in place,
    and its final contents are the base terms of the pure model. *)
Lemma build_base_parts_spec (topic : str) (f : filters) (h : heap) :
  build_base_parts topic f h = (List.length h, h ++ [base_parts topic f]).
Proof.
  unfold build_base_parts, base_parts, alloc.
  repeat match goal with
         | |- context [if ?b then _ else _] => destruct b
         end;
    rewrite ?list_append_last; reflexivity.
Qed.

(** With country and region set, two new objects are built and nothing that
    was on the heap is touched; the third candidate is [base_parts] itself. *)
Lemma build_tries_spec (b : ref) (f : filters) (h : heap) :
  (b < List.length h)%nat ->
  fcountry f <> lit "Any" -> fregion f <> lit "Any" ->
  build_tries b f h
  = ([List.length h; S (List.length h); b],
     h ++ [deref h b ++ [fcountry f; fregion f]; deref h b ++ [fcountry f]]).
Proof.
  intros Hb Hc Hr. apply str_eqb_neq in Hc, Hr.
  unfold build_tries, list_add, alloc. rewrite Hc, Hr. simpl.
  rewrite (deref_old h _ b Hb), length_app, <- app_assoc. simpl.
  rewrite Nat.add_1_r. reflexivity.
Qed.

(** C5, amended.  With country and region both set the builder makes
    exactly three candidates: the base query followed by the country and
    the region, the base query followed by the country, and the base query
    alone, to which no location term is added.  On the heap the candidates
    are built without changing [base_parts]: the first two are new objects,
    the third is [base_parts] itself, and every object that existed before
    is unchanged afterwards. *)
Theorem query_candidates_three (topic : str) (f : filters) :
  fcountry f <> lit "Any" -> fregion f <> lit "Any" ->
  let base := join (lit " ") (base_parts topic f) in
  tries topic f
  = [base_parts topic f ++ [fcountry f; fregion f];
     base_parts topic f ++ [fcountry f];
     base_parts topic f]
  /\ query_candidates topic f
     = [base ++ lit " " ++ fcountry f ++ lit " " ++ fregion f;
        base ++ lit " " ++ fcountry f;
        base]
  /\ List.length (query_candidates topic f) = 3%nat
  /\ (exists q1 q2 q3,
         query_candidates topic f = [q1; q2; q3]
         /\ ends_with q1 (fcountry f ++ lit " " ++ fregion f)
         /\ ends_with q2 (fcountry f)
         /\ q3 = base)
  /\ (forall h : heap,
         exists b h0 ts fresh,
           build_base_parts topic f h = (b, h0)
           /\ build_tries b f h0 = (ts, h0 ++ fresh)
           /\ deref h0 b = base_parts topic f
           /\ deref (h0 ++ fresh) b = base_parts topic f
           /\ map (deref (h0 ++ fresh)) ts = tries topic f
           /\ NoDup ts
           /\ nth 2 ts O = b).
Proof.
  intros Hc Hr base.
  assert (Etries := tries_country_region topic f Hc Hr).
  assert (Equeries :
            query_candidates topic f
            = [base ++ lit " " ++ fcountry f ++ lit " " ++ fregion f;
               base ++ lit " " ++ fcountry f;
               base]).
  { unfold query_candidates. rewrite Etries. simpl map.
    change (base_parts topic f ++ [fcountry f; fregion f])
      with (base_parts topic f ++ [fcountry f] ++ [fregion f]).
    rewrite app_assoc.
    rewrite (join_snoc _ (base_parts topic f ++ [fcountry f]))
      by (intros E; apply app_eq_nil in E as [_ E]; discriminate).
    rewrite !join_snoc by apply base_parts_nonempty.
    rewrite <- !app_assoc. reflexivity. }
  split; [exact Etries|]. split; [exact Equeries|].
  split; [rewrite Equeries; reflexivity|]. split.
  - eexists _, _, _. split; [exact Equeries|]. split; [|split].
    + exists (base ++ lit " "). rewrite <- !app_assoc. reflexivity.
    + exists (base ++ lit " "). rewrite <- !app_assoc. reflexivity.
    + reflexivity.
  - intros h.
    exists (List.length h), (h ++ [base_parts topic f]),
      [List.length (h ++ [base_parts topic f]);
       S (List.length (h ++ [base_parts topic f]));
       List.length h],
      [base_parts topic f ++ [fcountry f; fregion f];
       base_parts topic f ++ [fcountry f]].
    assert (Hlt : (List.length h < List.length (h ++ [base_parts topic f]))%nat)
      by (rewrite length_app; simpl; lia).
    split; [apply build_base_parts_spec|]. split.
    { rewrite build_tries_spec by assumption. rewrite deref_new. reflexivity. }
    split; [apply deref_new|]. split.
    { rewrite deref_old by exact Hlt. apply deref_new. }
    split.
    { rewrite Etries. cbn [map].
      rewrite deref_new.
      rewrite (deref_old (h ++ [base_parts topic f]) _ (List.length h) Hlt).
      rewrite deref_new.
      replace ((h ++ [base_parts topic f])
               ++ [base_parts topic f ++ [fcountry f; fregion f];
                   base_parts topic f ++ [fcountry f]])
        with (((h ++ [base_parts topic f])
               ++ [base_parts topic f ++ [fcountry f; fregion f]])
              ++ [base_parts topic f ++ [fcountry f]])
        by (rewrite <- !app_assoc; reflexivity).
      replace (S (List.length (h ++ [base_parts topic f])))
        with (List.length ((h ++ [base_parts topic f])
               ++ [base_parts topic f ++ [fcountry f; fregion f]]))
        by (rewrite !length_app; simpl; lia).
      rewrite deref_new. reflexivity. }
    split; [|reflexivity].
    rewrite length_app. simpl.
    repeat constructor; simpl; intuition lia.
Qed.

Lemma query_candidates_three_witness :
  let topic := lit "python basics" in
  let f := any_filters (lit "Australia") (lit "Melbourne") in
  query_candidates topic f
  = [lit "python basics education course OR workshop OR webinar OR training Australia Melbourne";
     lit "python basics education course OR workshop OR webinar OR training Australia";
     lit "python basics education course OR workshop OR webinar OR training"]
  /\ List.length (query_candidates topic f) = 3%nat.
Proof.
  intros topic f.
  assert (Hc : fcountry f <> lit "Any") by (vm_compute; discriminate).
  assert (Hr : fregion f <> lit "Any") by (vm_compute; discriminate).
  destruct (query_candidates_three topic f Hc Hr) as [_ [Hq [Hlen _]]].
  split; [|exact Hlen].
  rewrite Hq. reflexivity.
Defined.

(** C5 as stated fails for a topic that names the country: the third
    candidate then contains the country, as a term and as text. *)
Lemma third_candidate_names_country_counterexample :
  let topic := lit "Australia" in
  let f := any_filters (lit "Australia") (lit "Melbourne") in
  fcountry f <> lit "Any"
  /\ fregion f <> lit "Any"
  /\ nth 2 (query_candidates topic f) []
     = lit "Australia education course OR workshop OR webinar OR training"
  /\ In (fcountry f) (nth 2 (tries topic f) [])
  /\ ~ (exists q1 q2 q3,
           query_candidates topic f = [q1; q2; q3]
           /\ ends_with q1 (fcountry f ++ lit " " ++ fregion f)
           /\ ends_with q2 (fcountry f)
           /\ ~ occurs (fcountry f) q3
           /\ ~ occurs (fregion f) q3).
Proof.
  intros topic f.
  split; [vm_compute; discriminate|].
  split; [vm_compute; discriminate|].
  split; [reflexivity|].
  split; [left; reflexivity|].
  intros [q1 [q2 [q3 [E [_ [_ [Hno _]]]]]]].
  apply Hno. injection E as _ _ <-.
  apply str_in_spec. vm_compute. reflexivity.
Qed.

(** ** Region without country *)

Lemma base_parts_with_region (topic : str) (f : filters) (r : str) :
  base_parts topic (with_region f r) = base_parts topic f.
Proof. reflexivity. Qed.

(** C10. When the country is [Any] the region plays no part: whatever the
    region, the candidate list is the base query alone, [search_web] does
    the same, and [matches_location] is true. *)
Theorem region_ignored_when_country_any {B : PyBuiltins} {W : World}
    (topic text : str) (f : filters) (r1 r2 : str) (N : Z) :
  fcountry f = lit "Any" ->
  query_candidates topic (with_region f r1)
  = [join (lit " ") (base_parts topic f)]
  /\ query_candidates topic (with_region f r1)
     = query_candidates topic (with_region f r2)
  /\ search_web topic (with_region f r1) N
     = search_web topic (with_region f r2) N
  /\ matches_location text (fcountry f) r1 = true
  /\ matches_location text (fcountry f) r2 = true.
Proof.
  intros Hany.
  assert (Ht : forall r, tries topic (with_region f r) = [base_parts topic f]).
  { intros r. rewrite tries_any_country by exact Hany.
    rewrite base_parts_with_region. reflexivity. }
  unfold search_web, query_candidates. rewrite !Ht.
  repeat split; unfold matches_location; rewrite Hany; reflexivity.
Qed.

(** ** The page fetcher *)

(** C7. [scrape_page] returns and never raises: when the page is fetched
    it returns the extracted text cut by [max_chars] (1500 unless given),
    which has at most [max_chars] code points for a bound [max_chars >= 0];
    when anything in the fetch raises it returns the placeholder
    [(scrape error: <details>)]. *)
Theorem scrape_page_never_raises {W : World} (url : str) (max_chars : Z) :
  (exists text, scrape_page url max_chars = Ok text)
  /\ (forall words,
         page_words url = Ok words ->
         scrape_page url max_chars
         = Ok (slice_to (join (lit " ") words) max_chars)
         /\ (exists rest,
                join (lit " ") words
                = slice_to (join (lit " ") words) max_chars ++ rest)
         /\ (0 <= max_chars ->
             Z.of_nat (List.length (slice_to (join (lit " ") words) max_chars))
             <= max_chars))
  /\ (forall e,
         page_words url = Raise e ->
         scrape_page url max_chars
         = Ok (lit "(scrape error: " ++ exn_str e ++ lit ")"))
  /\ default_max_chars = 1500.
Proof.
  unfold scrape_page, try_except, bind. split; [|split; [|split]].
  - destruct (page_words url); eexists; reflexivity.
  - intros words ->. split; [reflexivity|]. split.
    + apply slice_to_prefix.
    + apply slice_to_length.
  - intros e ->. reflexivity.
  - reflexivity.
Qed.

Lemma scrape_page_never_raises_witness :
  let W := steady_world (lit "0123abcd") in
  scrape_page (lit "http://x") 9 = Ok (lit "Free onli")
  /\ Z.of_nat (List.length (lit "Free onli")) <= 9
  /\ scrape_page (lit "http://y") 9 = Ok (lit "(scrape error: 404 Client Error)").
Proof.
  intros W.
  destruct (scrape_page_never_raises (W := W) (lit "http://x") 9)
    as [_ [Hok _]].
  destruct (scrape_page_never_raises (W := W) (lit "http://y") 9)
    as [_ [_ [Herr _]]].
  destruct (Hok robotics_words eq_refl) as [E [_ Hlen]].
  split; [exact E|]. split.
  - apply (Hlen ltac:(lia)).
  - apply (Herr {| exn_str := lit "404 Client Error" |}). reflexivity.
Defined.

(** ** Validation of the hits *)

Lemma py_or_nil {A : Type} (a : list A) : py_or a [] = a.
Proof. destruct a; reflexivity. Qed.

Lemma py_or_empty {A : Type} (b : list A) : py_or [] b = b.
Proof. reflexivity. Qed.

Lemma py_or_nonempty {A : Type} (a b : list A) : a <> [] -> py_or a b = a.
Proof. destruct a; [congruence | reflexivity]. Qed.

Section PipelineProps.
Context {B : PyBuiltins} {W : World}.

Lemma scrape_page_total (url : str) (max_chars : Z) :
  exists text, scrape_page url max_chars = Ok text.
Proof.
  unfold scrape_page, try_except, bind.
  destruct (page_words url); eexists; reflexivity.
Qed.

Lemma validate_hit_total (f : filters) (r : hit) :
  exists o, validate_hit f r = Ok o.
Proof.
  unfold validate_hit.
  destruct (scrape_page_total (link r) default_max_chars) as [text ->].
  unfold bind.
  repeat match goal with
         | |- context [if ?b then _ else _] => destruct b
         end; eexists; reflexivity.
Qed.

(** What an accepted hit went through, and how its item is filled in. *)
Lemma validate_hit_item (f : filters) (r : hit) (it : item) :
  validate_hit f r = Ok (Some it) ->
  exists page_text,
    scrape_page (link r) default_max_chars = Ok page_text
    /\ is_educational (combined_text r page_text) = true
    /\ matches_location (combined_text r page_text) (fcountry f) (fregion f)
       = true
    /\ it = {| item_title := title r;
               item_link := link r;
               item_snippet := py_or (snippet r) (slice_to page_text 300);
               item_type := classify_type (combined_text r page_text);
               item_mode := classify_mode (combined_text r page_text);
               item_cost := classify_cost (combined_text r page_text);
               item_country := fcountry f;
               item_region := fregion f;
               raw_text := slice_to (combined_text r page_text) 2000 |}.
Proof.
  unfold validate_hit.
  destruct (scrape_page (link r) default_max_chars) as [page_text | e];
    [|discriminate].
  unfold bind.
  destruct (is_educational _) eqn:Eedu; [|discriminate].
  destruct (matches_location _ _ _) eqn:Eloc; [|discriminate].
  cbn [negb].
  repeat match goal with
         | |- context [if ?b then _ else _] => destruct b
         end; try discriminate.
  intros E. injection E as <-. exists page_text. repeat split; assumption.
Qed.

Lemma validate_hits_total (f : filters) (hits : list hit) (acc : list item) :
  exists items, validate_hits f hits acc = Ok items.
Proof.
  revert acc. induction hits as [|r rest IH]; intros acc; simpl.
  - eexists; reflexivity.
  - destruct (validate_hit_total f r) as [[it|] ->]; simpl; apply IH.
Qed.

Lemma validate_hits_sound (f : filters) (hits : list hit)
    (acc items : list item) :
  validate_hits f hits acc = Ok items ->
  forall it, In it items ->
             In it acc \/ exists r, In r hits /\ validate_hit f r = Ok (Some it).
Proof.
  revert acc. induction hits as [|r rest IH]; intros acc; simpl.
  - intros E it Hin. injection E as <-. left. exact Hin.
  - destruct (validate_hit f r) as [[it'|] | e] eqn:Ehit; simpl;
      [| |discriminate].
    + intros E it Hin.
      destruct (IH _ E it Hin) as [Hacc | [r' [Hr' Hv]]].
      * apply in_app_or in Hacc as [Hacc | [<- | []]].
        -- left. exact Hacc.
        -- right. exists r. split; [left; reflexivity | exact Ehit].
      * right. exists r'. split; [right; exact Hr' | exact Hv].
    + intros E it Hin.
      destruct (IH _ E it Hin) as [Hacc | [r' [Hr' Hv]]].
      * left. exact Hacc.
      * right. exists r'. split; [right; exact Hr' | exact Hv].
Qed.

(** C6. Every item the validation loop builds has as [raw_text] the
    combined text cut to at most 2000 code points, and as snippet the first
    300 code points of the fetched page text when the snippet of its hit is
    empty and the snippet of the hit otherwise; the loop itself never
    raises, a long text is cut and nothing else happens. *)
Theorem classified_result_fields (f : filters) (hits : list hit) :
  (exists items, validate_hits f hits [] = Ok items)
  /\ (forall items it,
         validate_hits f hits [] = Ok items ->
         In it items ->
         exists r page_text,
           In r hits
           /\ scrape_page (link r) default_max_chars = Ok page_text
           /\ raw_text it = slice_to (combined_text r page_text) 2000
           /\ (exists rest, combined_text r page_text = raw_text it ++ rest)
           /\ Z.of_nat (List.length (raw_text it)) <= 2000
           /\ (snippet r = [] ->
               item_snippet it = slice_to page_text 300
               /\ (exists rest, page_text = item_snippet it ++ rest)
               /\ Z.of_nat (List.length (item_snippet it)) <= 300)
           /\ (snippet r <> [] -> item_snippet it = snippet r)).
Proof.
  split; [apply validate_hits_total|].
  intros items it E Hin.
  destruct (validate_hits_sound _ _ _ _ E it Hin) as [[] | [r [Hr Hv]]].
  apply validate_hit_item in Hv as [page_text [Hpage [_ [_ ->]]]].
  exists r, page_text. cbn [raw_text item_snippet].
  split; [exact Hr|]. split; [exact Hpage|]. split; [reflexivity|].
  split; [apply slice_to_prefix|].
  split; [apply slice_to_length; lia|]. split.
  - intros ->. rewrite py_or_empty.
    split; [reflexivity|]. split; [apply slice_to_prefix|].
    apply slice_to_length; lia.
  - intros Hne. apply py_or_nonempty. exact Hne.
Qed.

End PipelineProps.

Lemma classified_result_fields_witness :
  let W := steady_world (lit "0123abcd") in
  let B := ascii_builtins in
  let f := any_filters (lit "Any") (lit "Any") in
  let hits := candidate_result (lit "robotics for kids") 8 in
  exists it1 it2,
    validate_hits f hits [] = Ok [it1; it2]
    /\ item_snippet it1 = lit "Free online robotics course for children"
    /\ item_snippet it2 = lit "(scrape error: 404 Client Error)"
    /\ Z.of_nat (List.length (raw_text it2)) <= 2000.
Proof.
  intros W B f hits.
  destruct (classified_result_fields (B := B) (W := W) f hits)
    as [[items E] Hfields].
  assert (E2 : exists it1 it2, items = [it1; it2]
                /\ item_snippet it1
                   = lit "Free online robotics course for children"
                /\ item_snippet it2 = lit "(scrape error: 404 Client Error)").
  { vm_compute in E. injection E as <-.
    eexists; eexists. split; [reflexivity|]. split; reflexivity. }
  destruct E2 as [it1 [it2 [-> [S1 S2]]]].
  exists it1, it2. split; [exact E|]. split; [exact S1|]. split; [exact S2|].
  destruct (Hfields [it1; it2] it2 E) as [r [p [_ [_ [_ [_ [Hlen _]]]]]]].
  - right. left. reflexivity.
  - exact Hlen.
Defined.

(** ** The result store *)

Lemma sorted_snoc (l : list Z) (x : Z) :
  StronglySorted Z.lt l -> Forall (fun i => i < x) l ->
  StronglySorted Z.lt (l ++ [x]).
Proof.
  induction l as [|a l IH]; intros Hs Hall; simpl.
  - constructor; constructor.
  - apply StronglySorted_inv in Hs as [Hs Ha].
    inversion Hall as [|? ? Hax Hall']; subst.
    constructor.
    + apply IH; assumption.
    + apply Forall_app. split; [exact Ha | constructor; [exact Hax | constructor]].
Qed.

Lemma sorted_nodup (l : list Z) : StronglySorted Z.lt l -> NoDup l.
Proof.
  induction l as [|a l IH]; intros Hs; constructor.
  - apply StronglySorted_inv in Hs as [_ Ha].
    intros Hin. rewrite Forall_forall in Ha. specialize (Ha a Hin). lia.
  - apply IH. apply StronglySorted_inv in Hs as [Hs _]. exact Hs.
Qed.

Lemma largest_id_bound (rs : list row) (s : Z) :
  0 <= s -> Forall (fun i => 0 < i <= s) (ids rs) -> largest_id rs <= s.
Proof.
  intros Hs. induction rs as [|r rs IH]; simpl; intros Hall; [exact Hs|].
  inversion Hall as [|? ? Hr Hall']; subst.
  specialize (IH Hall'). lia.
Qed.

Lemma insert_desc_smallest (r : row) (l : list row) :
  Forall (fun r' => id r < id r') l -> insert_desc r l = l ++ [r].
Proof.
  induction l as [|r' l IH]; intros Hall; simpl; [reflexivity|].
  inversion Hall as [|? ? Hr Hall']; subst.
  destruct (Z.leb_spec (id r') (id r)); [lia|].
  rewrite IH by exact Hall'. reflexivity.
Qed.

(** On ids that grow along the insertion order, [ORDER BY id DESC] is the
    reverse of the insertion order. *)
Lemma order_by_id_desc_rev (rs : list row) :
  StronglySorted Z.lt (ids rs) -> order_by_id_desc rs = rev rs.
Proof.
  induction rs as [|r rs IH]; intros Hs; simpl; [reflexivity|].
  simpl in Hs. apply StronglySorted_inv in Hs as [Hs Hr].
  rewrite IH by exact Hs. apply insert_desc_smallest.
  apply Forall_rev. unfold ids in Hr. rewrite Forall_map in Hr. exact Hr.
Qed.

Lemma save_result_wf (q ti l c : str) (t : table) :
  wf_table t ->
  save_result q ti l c (Some t)
  = if seq t <? max_rowid then
      Ok (Some {| rows := rows t
                          ++ [{| id := seq t + 1; query := q; row_title := ti;
                                 row_link := l; content := c |}];
                  seq := seq t + 1 |})
    else Raise {| exn_str := lit "database or disk is full" |}.
Proof.
  intros [_ [Hall Hseq]]. unfold save_result, insert_row.
  rewrite py_or_nil.
  pose proof (largest_id_bound _ _ Hseq Hall).
  replace (Z.max (seq t) (largest_id (rows t))) with (seq t) by lia.
  reflexivity.
Qed.

Lemma save_result_keeps_wf (q ti l c : str) (db db' : database) :
  wf db -> save_result q ti l c db = Ok db' ->
  wf db'
  /\ exists r, stored_rows db' = stored_rows db ++ [r]
               /\ query r = q /\ row_title r = ti /\ row_link r = l
               /\ content r = c
               /\ Forall (fun r' => id r' < id r) (stored_rows db).
Proof.
  destruct db as [t|]; [|discriminate].
  intros Hwf. rewrite (save_result_wf _ _ _ _ _ Hwf).
  destruct Hwf as [Hs [Hall Hseq]].
  destruct (seq t <? max_rowid); [|discriminate].
  intros E. injection E as <-. simpl.
  assert (Hlt : Forall (fun i => i < seq t + 1) (ids (rows t))).
  { eapply Forall_impl; [|exact Hall]. simpl. intros i Hi. lia. }
  split.
  - unfold wf_table. simpl. unfold ids in *. rewrite map_app. simpl.
    split; [apply sorted_snoc; assumption|]. split; [|lia].
    apply Forall_app. split.
    + eapply Forall_impl; [|exact Hall]. simpl. intros i Hi. lia.
    + constructor; [lia | constructor].
  - eexists. split; [reflexivity|]. simpl. repeat split.
    unfold ids in Hlt. rewrite Forall_map in Hlt. exact Hlt.
Qed.

Lemma create_database_spec (db : database) :
  create_database db
  = Ok (match db with
        | None => Some {| rows := []; seq := 0 |}
        | Some t => Some t
        end).
Proof. destruct db; reflexivity. Qed.

Lemma run_op_keeps_wf (op : store_op) (db : database) :
  wf db ->
  wf (run_op op db)
  /\ exists added, stored_rows (run_op op db) = stored_rows db ++ added.
Proof.
  intros Hwf. destruct op as [|q ti l c|]; simpl.
  - destruct db as [t|]; simpl.
    + split; [exact Hwf | exists []; rewrite app_nil_r; reflexivity].
    + split; [|exists []; reflexivity].
      unfold wf_table. simpl. repeat split; [constructor | constructor | lia].
  - destruct (save_result q ti l c db) as [db'|e] eqn:E.
    + destruct (save_result_keeps_wf _ _ _ _ _ _ Hwf E) as [Hwf' [r [Er _]]].
      split; [exact Hwf' | exists [r]; exact Er].
    + split; [exact Hwf | exists []; rewrite app_nil_r; reflexivity].
  - split; [exact Hwf | exists []; rewrite app_nil_r; reflexivity].
Qed.

Lemma run_ops_keeps_wf (ops : list store_op) (db : database) :
  wf db ->
  wf (run_ops ops db)
  /\ exists added, stored_rows (run_ops ops db) = stored_rows db ++ added.
Proof.
  revert db. induction ops as [|op ops IH]; intros db Hwf.
  - split; [exact Hwf | exists []; rewrite app_nil_r; reflexivity].
  - change (run_ops (op :: ops) db) with (run_ops ops (run_op op db)).
    destruct (run_op_keeps_wf op db Hwf) as [Hwf1 [a1 E1]].
    destruct (IH _ Hwf1) as [Hwf2 [a2 E2]].
    split; [exact Hwf2|]. exists (a1 ++ a2).
    rewrite E2, E1, app_assoc. reflexivity.
Qed.

Lemma wf_sorted (db : database) :
  wf db -> StronglySorted Z.lt (ids (stored_rows db)).
Proof.
  destruct db as [t|]; simpl; [intros [Hs _]; exact Hs | constructor].
Qed.

(** C9. Starting from a file that only [database.py] has written to, for
    instance the empty file, and after any sequence of operations: the rows
    present before are all still there, unchanged and in place, with the new
    ones after them; a save adds exactly one row, whose id is larger than
    every id in the table; ids are unique and grow in insertion order;
    [get_results] returns all rows, latest first; and [create_database] can
    be run again without raising and without changing anything. *)
Theorem store_invariants (ops : list store_op) (db : database) :
  wf db ->
  let db' := run_ops ops db in
  wf db'
  /\ (exists added, stored_rows db' = stored_rows db ++ added)
  /\ (forall q ti l c db2,
         save_result q ti l c db' = Ok db2 ->
         exists r,
           stored_rows db2 = stored_rows db' ++ [r]
           /\ query r = q /\ row_title r = ti /\ row_link r = l
           /\ content r = c
           /\ Forall (fun r' => id r' < id r) (stored_rows db'))
  /\ StronglySorted Z.lt (ids (stored_rows db'))
  /\ NoDup (ids (stored_rows db'))
  /\ (forall t, db' = Some t -> get_results db' = Ok (rev (rows t)))
  /\ (exists db1,
         create_database db' = Ok db1
         /\ create_database db1 = Ok db1
         /\ stored_rows db1 = stored_rows db'
         /\ (db' <> None -> db1 = db')).
Proof.
  intros Hwf db'.
  destruct (run_ops_keeps_wf ops db Hwf) as [Hwf' Happ]. fold db' in Hwf', Happ.
  pose proof (wf_sorted db' Hwf') as Hsorted.
  split; [exact Hwf'|]. split; [exact Happ|]. split.
  { intros q ti l c db2 E.
    destruct (save_result_keeps_wf _ _ _ _ _ _ Hwf' E) as [_ H]. exact H. }
  split; [exact Hsorted|]. split; [apply sorted_nodup; exact Hsorted|]. split.
  { intros t E. rewrite E in Hsorted |- *. simpl in *.
    rewrite order_by_id_desc_rev by exact Hsorted. reflexivity. }
  rewrite create_database_spec. eexists. split; [reflexivity|].
  destruct db' as [t|]; simpl; repeat split; congruence.
Qed.

Lemma store_invariants_witness :
  let ops := [OpCreate;
              OpSave (lit "maths") (lit "A") (lit "http://a") (lit "one");
              OpCreate;
              OpSave (lit "maths") (lit "B") (lit "http://b") [];
              OpList] in
  let db' := run_ops ops None in
  ids (stored_rows db') = [1; 2]
  /\ NoDup (ids (stored_rows db'))
  /\ (exists r1 r2, get_results db' = Ok [r2; r1]
                    /\ stored_rows db' = [r1; r2]).
Proof.
  intros ops db'.
  destruct (store_invariants ops None I) as [_ [_ [_ [_ [Hnodup [Hget _]]]]]].
  fold db' in Hnodup, Hget.
  split; [reflexivity|]. split; [exact Hnodup|].
  eexists; eexists. split; [|reflexivity].
  rewrite (Hget _ eq_refl). reflexivity.
Defined.

(** ** The persisted content and its tags *)

Lemma read_until_app (c : N) (s rest : str) :
  lacks c s = true -> read_until c (s ++ c :: rest) = Some (s, rest).
Proof.
  induction s as [|x s IH]; simpl.
  - intros _. rewrite N.eqb_refl. reflexivity.
  - rewrite andb_true_iff, negb_true_iff. intros [Hx Hs].
    rewrite Hx, IH by exact Hs. reflexivity.
Qed.

Lemma expect_app (p s : str) : expect p (p ++ s) = Some s.
Proof.
  unfold expect.
  replace (startswith p (p ++ s)) with true
    by (symmetry; apply startswith_spec; exists s; reflexivity).
  f_equal. induction p as [|x p IH]; simpl; [reflexivity | exact IH].
Qed.

Lemma read_tag_ok (name v rest : str) :
  lacks 93 v = true ->
  read_tag name (lit "[" ++ name ++ lit ":" ++ v ++ lit "]" ++ rest)
  = Some (v, rest).
Proof.
  intros Hv. unfold read_tag.
  replace (lit "[" ++ name ++ lit ":" ++ v ++ lit "]" ++ rest)
    with ((lit "[" ++ name ++ lit ":") ++ v ++ 93%N :: rest)
    by (rewrite <- !app_assoc; reflexivity).
  rewrite expect_app. apply read_until_app. exact Hv.
Qed.

Lemma tag_safe_lacks (s : str) :
  tag_safe s = true -> lacks 93 s = true /\ lacks 10 s = true.
Proof.
  unfold tag_safe, lacks. induction s as [|x s IH]; simpl; [auto|].
  rewrite !andb_true_iff. intros [[H1 H2] Hs].
  destruct (IH Hs) as [IH1 IH2]. auto.
Qed.

Lemma lacks_app (c : N) (a b : str) :
  lacks c (a ++ b) = lacks c a && lacks c b.
Proof. apply forallb_app. Qed.

Lemma tag_block_tags (ty mo co cn rg : str) :
  tag_block ty mo co cn rg
  = lit "[" ++ lit "TYPE" ++ lit ":" ++ ty ++ lit "]"
    ++ lit "[" ++ lit "MODE" ++ lit ":" ++ mo ++ lit "]"
    ++ lit "[" ++ lit "COST" ++ lit ":" ++ co ++ lit "]"
    ++ lit "[" ++ lit "COUNTRY" ++ lit ":" ++ cn ++ lit "]"
    ++ lit "[" ++ lit "REGION" ++ lit ":" ++ rg ++ lit "]" ++ [].
Proof.
  unfold tag_block. rewrite app_nil_r. reflexivity.
Qed.

(** The reader recovers the five values from a tag block of safe values,
    whatever the raw text after the newline. *)
Lemma parse_tags_tag_block (ty mo co cn rg raw : str) :
  tag_safe ty = true -> tag_safe mo = true -> tag_safe co = true ->
  tag_safe cn = true -> tag_safe rg = true ->
  parse_tags (tag_block ty mo co cn rg ++ newline ++ raw)
  = Some {| tag_type := ty; tag_mode := mo; tag_cost := co;
            tag_country := cn; tag_region := rg |}.
Proof.
  intros Hty Hmo Hco Hcn Hrg.
  apply tag_safe_lacks in Hty as [Hty Hty'], Hmo as [Hmo Hmo'],
    Hco as [Hco Hco'], Hcn as [Hcn Hcn'], Hrg as [Hrg Hrg'].
  change (newline ++ raw) with (10%N :: raw). unfold parse_tags.
  rewrite read_until_app.
  - rewrite tag_block_tags.
    rewrite read_tag_ok by exact Hty.
    rewrite read_tag_ok by exact Hmo.
    rewrite read_tag_ok by exact Hco.
    rewrite read_tag_ok by exact Hcn.
    rewrite read_tag_ok by exact Hrg.
    reflexivity.
  - unfold tag_block. rewrite !lacks_app.
    rewrite Hty', Hmo', Hco', Hcn', Hrg'. reflexivity.
Qed.

Lemma selectable_tag_safe (country region : str) :
  selectable country region ->
  tag_safe country = true /\ tag_safe region = true.
Proof.
  intros [regions [Hc Hr]].
  assert (Hall : forallb (fun cr => tag_safe (fst cr) && forallb tag_safe (snd cr))
                   COUNTRY_REGIONS = true) by (vm_compute; reflexivity).
  rewrite forallb_forall in Hall. specialize (Hall _ Hc). simpl in Hall.
  apply andb_true_iff in Hall as [H1 H2]. split; [exact H1|].
  rewrite forallb_forall in H2. apply H2. exact Hr.
Qed.

Section ContentProps.
Context {B : PyBuiltins} {W : World}.

Lemma classify_type_safe (text : str) : tag_safe (classify_type text) = true.
Proof.
  unfold classify_type.
  repeat match goal with
         | |- context [if ?b then _ else _] => destruct b
         end; reflexivity.
Qed.

Lemma classify_mode_safe (text : str) : tag_safe (classify_mode text) = true.
Proof.
  unfold classify_mode.
  repeat match goal with
         | |- context [if ?b then _ else _] => destruct b
         end; reflexivity.
Qed.

Lemma classify_cost_safe (text : str) : tag_safe (classify_cost text) = true.
Proof.
  unfold classify_cost.
  repeat match goal with
         | |- context [if ?b then _ else _] => destruct b
         end; reflexivity.
Qed.

Lemma content_of_tag_block (it : item) :
  content_of it
  = tag_block (item_type it) (item_mode it) (item_cost it) (item_country it)
      (item_region it) ++ newline ++ raw_text it.
Proof. unfold content_of, tag_block. rewrite <- !app_assoc. reflexivity. Qed.

Lemma save_items_rows (topic : str) (items : list item) (db db' : database) :
  save_items topic items db = Ok db' ->
  exists new_rows,
    stored_rows db' = stored_rows db ++ new_rows
    /\ Forall2 (fun r it => query r = topic
                            /\ row_title r = item_title it
                            /\ row_link r = item_link it
                            /\ content r = content_of it) new_rows items.
Proof.
  revert db. induction items as [|it items IH]; intros db; simpl.
  - intros E. injection E as <-. exists []. rewrite app_nil_r.
    split; [reflexivity | constructor].
  - destruct (save_result topic (item_title it) (item_link it) (content_of it) db)
      as [db1|e] eqn:E1; simpl; [|discriminate].
    intros E. destruct (IH _ E) as [new_rows [Erows Hall]].
    unfold save_result, insert_row in E1. rewrite py_or_nil in E1.
    destruct db as [t|]; [|discriminate].
    destruct (_ <? max_rowid); [|discriminate].
    injection E1 as <-. simpl in Erows.
    eexists (_ :: new_rows). split.
    + rewrite Erows, <- app_assoc. reflexivity.
    + constructor; [|exact Hall]. simpl. repeat split.
Qed.

Lemma find_programs_showing (topic : str) (f : filters) (n : Z)
    (db db' : database) (items : list item) :
  find_programs topic f n db = Ok (Showing items, db') ->
  exists log hits,
    search_web topic f n = Ok (log, hits)
    /\ validate_hits f hits [] = Ok items
    /\ save_items topic items db = Ok db'.
Proof.
  unfold find_programs, bind.
  destruct (truthy (strip topic)); cbn [negb]; [|discriminate].
  destruct (search_web topic f n) as [[log hits]|e] eqn:Es; [|discriminate].
  destruct (truthy hits); cbn [negb]; [|discriminate].
  destruct (validate_hits f hits []) as [items'|e] eqn:Ev; [|discriminate].
  destruct (truthy items'); cbn [negb]; [|discriminate].
  destruct (save_items topic items' db) as [db1|e] eqn:Ed; [|discriminate].
  intros E. injection E as <- <-. exists log, hits. auto.
Qed.

(** C8. For every accepted result of a search whose country and region come
    from the menus of the page, the content handed to the store and kept
    there is the tag block
    [[TYPE:..][MODE:..][COST:..][COUNTRY:..][REGION:..]], a newline, and the
    truncated raw text; and a reader given the content alone, parsing the
    bracketed prefix up to the first newline, recovers the five values. *)
Theorem content_round_trip (topic : str) (f : filters) (n : Z)
    (db db' : database) (items : list item) :
  selectable (fcountry f) (fregion f) ->
  find_programs topic f n db = Ok (Showing items, db') ->
  (exists new_rows,
      stored_rows db' = stored_rows db ++ new_rows
      /\ Forall2 (fun r it => query r = topic
                              /\ row_title r = item_title it
                              /\ row_link r = item_link it
                              /\ content r = content_of it) new_rows items)
  /\ (forall it,
         In it items ->
         content_of it
         = lit "[TYPE:" ++ item_type it ++ lit "][MODE:" ++ item_mode it
           ++ lit "][COST:" ++ item_cost it
           ++ lit "][COUNTRY:" ++ fcountry f
           ++ lit "][REGION:" ++ fregion f ++ lit "]"
           ++ newline ++ raw_text it
         /\ Z.of_nat (List.length (raw_text it)) <= 2000
         /\ parse_tags (content_of it) = Some (tags_of it)
         /\ tag_country (tags_of it) = fcountry f
         /\ tag_region (tags_of it) = fregion f).
Proof.
  intros Hsel E.
  apply find_programs_showing in E as [log [hits [_ [Ev Es]]]].
  split; [apply (save_items_rows _ _ _ _ Es)|].
  intros it Hin.
  destruct (validate_hits_sound _ _ _ _ Ev it Hin) as [[] | [r [_ Hv]]].
  apply validate_hit_item in Hv as [page_text [_ [_ [_ ->]]]].
  apply selectable_tag_safe in Hsel as [Hc Hr].
  split; [reflexivity|].
  split; [cbn [raw_text]; apply slice_to_length; lia|].
  split; [|split; reflexivity].
  rewrite content_of_tag_block. cbn [item_type item_mode item_cost
    item_country item_region raw_text]. unfold tags_of.
  cbn [item_type item_mode item_cost item_country item_region].
  apply parse_tags_tag_block;
    auto using classify_type_safe, classify_mode_safe, classify_cost_safe.
Qed.

End ContentProps.

Lemma content_round_trip_witness :
  let W := steady_world (lit "0123abcd") in
  let B := ascii_builtins in
  let f := any_filters (lit "Australia") (lit "Melbourne") in
  exists it db',
    find_programs (lit "workshops") f 8 empty_results = Ok (Showing [it], db')
    /\ map content (stored_rows db') = [content_of it]
    /\ parse_tags (content_of it)
       = Some {| tag_type := lit "Seminar / Workshop";
                 tag_mode := lit "Unknown";
                 tag_cost := lit "Unknown";
                 tag_country := lit "Australia";
                 tag_region := lit "Melbourne" |}.
Proof.
  intros W B f.
  assert (Hsel : selectable (fcountry f) (fregion f)).
  { eexists. split; [right; left; reflexivity | right; left; reflexivity]. }
  destruct (find_programs (lit "workshops") f 8 empty_results)
    as [[[| | |items] db']|e] eqn:E; try (vm_compute in E; discriminate).
  assert (Eitems : exists it, items = [it]
                              /\ tags_of it
                                 = {| tag_type := lit "Seminar / Workshop";
                                      tag_mode := lit "Unknown";
                                      tag_cost := lit "Unknown";
                                      tag_country := lit "Australia";
                                      tag_region := lit "Melbourne" |}
                              /\ map content (stored_rows db') = [content_of it]).
  { vm_compute in E. injection E as <- <-.
    eexists. split; [reflexivity|]. split; reflexivity. }
  destruct Eitems as [it [-> [Etags Estored]]].
  exists it, db'. split; [reflexivity|]. split; [exact Estored|].
  destruct (content_round_trip (B := B) (W := W) _ f 8 _ _ _ Hsel E)
    as [_ Hit].
  destruct (Hit it (or_introl eq_refl)) as [_ [_ [Hparse _]]].
  rewrite Hparse, Etags. reflexivity.
Defined.

(** Outside the menus the tag block can be read in two ways: a closing
    bracket inside a value moves the border between country and region. *)
Lemma tag_block_ambiguous (ty mo co : str) :
  tag_block ty mo co (lit "A][REGION:B") (lit "C")
  = tag_block ty mo co (lit "A") (lit "B][REGION:C").
Proof.
  unfold tag_block. repeat (f_equal; try reflexivity).
Qed.

(** ** The classifiers on concrete texts *)

Lemma is_educational_iff_keyword_witness :
  let B := ascii_builtins in
  is_educational (lit "Python BOOTCAMP for teens") = true
  /\ is_educational (lit "Weather report") = false
  /\ is_educational [] = false.
Proof.
  intros B.
  destruct (is_educational_iff_keyword (B := B) (L := ascii_builtins_laws))
    as [_ [_ [Hiff Hempty]]].
  split; [|split; [reflexivity | exact Hempty]].
  apply Hiff. exists (lit "bootcamp"). split.
  - do 11 right. left. reflexivity.
  - apply str_in_spec. vm_compute. reflexivity.
Defined.

Lemma classify_first_match_wins_witness :
  let B := ascii_builtins in
  classify_type (lit "free webinar about our online course")
  = lit "Seminar / Workshop".
Proof.
  intros B.
  destruct (classify_first_match_wins (B := B) (L := ascii_builtins_laws)
              (lit "free webinar about our online course"))
    as [_ [_ [_ Hboth]]].
  apply Hboth; apply str_in_spec; vm_compute; reflexivity.
Defined.

Lemma matches_location_rules_witness :
  let B := ascii_builtins in
  matches_location (lit "Coding camp in MELBOURNE") (lit "Australia")
    (lit "Melbourne") = true
  /\ matches_location (lit "anything") (lit "Any") (lit "Any") = true.
Proof.
  intros B.
  destruct (matches_location_rules (B := B) (lit "Coding camp in MELBOURNE")
              (lit "Australia") (lit "Melbourne")) as [_ [_ [_ Hregion]]].
  destruct (matches_location_rules (B := B) (lit "anything")
              (lit "Any") (lit "Any")) as [Hany _].
  split; [|apply Hany; reflexivity].
  apply Hregion.
  - vm_compute. discriminate.
  - vm_compute. discriminate.
  - apply str_in_spec. vm_compute. reflexivity.
  - apply str_in_false. vm_compute. reflexivity.
Defined.

(** The examples of section 8 of the specification, run on the code.  The
    text [Sydney program] names neither the country nor the region, and the
    code answers false for it. *)
Lemma matches_location_examples :
  let B := ascii_builtins in
  matches_location (lit "Melbourne Australia program") (lit "Australia")
    (lit "Melbourne") = true
  /\ matches_location (lit "Sydney program") (lit "Australia")
       (lit "Melbourne") = false
  /\ matches_location (lit "Unrelated page") (lit "Australia")
       (lit "Melbourne") = false.
Proof. intros B. repeat split. Qed.

Lemma region_ignored_when_country_any_witness :
  let B := ascii_builtins in
  let W := relaxing_world in
  let f := any_filters (lit "Any") (lit "Any") in
  let topic := lit "robotics for kids" in
  query_candidates topic (with_region f (lit "Melbourne"))
  = [lit "robotics for kids education course OR workshop OR webinar OR training"]
  /\ search_web topic (with_region f (lit "Melbourne")) 8
     = search_web topic (with_region f (lit "Sydney")) 8
  /\ matches_location (lit "Unrelated page") (lit "Any") (lit "Melbourne")
     = true.
Proof.
  intros B W f topic.
  destruct (region_ignored_when_country_any (B := B) (W := W) topic
              (lit "Unrelated page") f (lit "Melbourne") (lit "Sydney") 8
              eq_refl) as [Hq [_ [Hs [Hm _]]]].
  split; [rewrite Hq; reflexivity|]. split; [exact Hs | exact Hm].
Defined.

(** * Further properties of the code *)

(** ** The hits of one search *)

Lemma collect_hits_filter_map (organic : list organic_result) :
  collect_hits organic [] = map to_hit (filter has_link organic).
Proof.
  induction organic as [|r rest IH]; simpl; [reflexivity|].
  unfold has_link. destruct (truthy (dict_get (r_link r) [])).
  - rewrite collect_hits_app, IH. reflexivity.
  - exact IH.
Qed.

Lemma slice_to_nil {A : Type} (n : Z) : slice_to (@nil A) n = [].
Proof. unfold slice_to. destruct (0 <=? n); apply firstn_nil. Qed.

(** X1. [_run_serpapi_query] keeps, in the order of the provider, those of
    the first [max_results] organic entries that have a non-empty link, with
    missing titles and snippets replaced by the empty string; an answer
    without the key [organic_results] gives the empty list; an exception of
    the provider is not caught here. *)
Theorem run_serpapi_query_hits {W : World} (query : str) (max_results : Z) :
  let params := {| engine := lit "google"; q := query;
                   num := max_results; api_key := API_KEY |} in
  (forall data,
      GoogleSearch_get_dict params = Ok data ->
      _run_serpapi_query query max_results
      = Ok (map to_hit
              (filter has_link
                 (slice_to (dict_get (organic_results data) []) max_results)))
      /\ (organic_results data = None ->
          _run_serpapi_query query max_results = Ok []))
  /\ (forall e,
         GoogleSearch_get_dict params = Raise e ->
         _run_serpapi_query query max_results = Raise e)
  /\ (forall hits h,
         _run_serpapi_query query max_results = Ok hits ->
         In h hits -> link h <> []).
Proof.
  intros params. unfold _run_serpapi_query. fold params.
  split; [|split].
  - intros data ->. simpl. rewrite collect_hits_filter_map.
    split; [reflexivity|]. intros ->. simpl. rewrite slice_to_nil. reflexivity.
  - intros e ->. reflexivity.
  - intros hits h. destruct (GoogleSearch_get_dict params) as [data|e]; simpl;
      [|discriminate].
    intros E Hin. injection E as <-.
    apply (collect_hits_links _ h Hin).
Qed.

Lemma run_serpapi_query_hits_witness :
  let W := steady_world (lit "0123abcd") in
  _run_serpapi_query (lit "robotics") 1
  = Ok [{| title := lit "Kids Robotics Course"; link := lit "http://x";
           snippet := lit "Free online robotics course for children" |}]
  /\ _run_serpapi_query (W := relaxing_world) (lit "in Melbourne") 8
     = Raise {| exn_str := lit "timed out" |}
  /\ _run_serpapi_query (W := relaxing_world) (lit "in Australia") 8 = Ok [].
Proof.
  intros W.
  destruct (run_serpapi_query_hits (W := W) (lit "robotics") 1) as [Hok _].
  destruct (run_serpapi_query_hits (W := relaxing_world) (lit "in Melbourne") 8)
    as [_ [Hraise _]].
  destruct (run_serpapi_query_hits (W := relaxing_world) (lit "in Australia") 8)
    as [Hnone _].
  split; [|split].
  - destruct (Hok _ eq_refl) as [E _]. rewrite E. reflexivity.
  - apply Hraise. reflexivity.
  - destruct (Hnone _ eq_refl) as [_ E]. apply E. reflexivity.
Defined.

(** ** The searches [search_web] issues *)

Lemma queries_of_app (a b : list event) :
  queries_of (a ++ b) = queries_of a ++ queries_of b.
Proof.
  induction a as [|[query n | msg] a IH]; simpl; [reflexivity | |exact IH].
  rewrite IH. reflexivity.
Qed.

Lemma queries_of_candidate_logs {W : World} (qs : list str) (n : Z) :
  queries_of (flat_map (fun q' => candidate_log q' n) qs) = qs.
Proof.
  induction qs as [|q' qs IH]; simpl; [reflexivity|].
  rewrite queries_of_app, IH. unfold candidate_log.
  destruct (_run_serpapi_query q' n); reflexivity.
Qed.

(** What a run of the loop amounts to: it stopped at the first candidate
    with hits, or went through all of them and found nothing. *)
Lemma search_loop_inv {W : World} (tries : list (list str)) (n : Z)
    (log : list event) (found : list hit) :
  search_loop tries n = Ok (log, found) ->
  (exists pre parts post,
      tries = pre ++ parts :: post
      /\ (forall p, In p pre -> candidate_result (join (lit " ") p) n = [])
      /\ found = candidate_result (join (lit " ") parts) n
      /\ found <> []
      /\ log = flat_map (fun p => candidate_log (join (lit " ") p) n)
                 (pre ++ [parts]))
  \/ ((forall p, In p tries -> candidate_result (join (lit " ") p) n = [])
      /\ found = []
      /\ log = flat_map (fun p => candidate_log (join (lit " ") p) n) tries).
Proof.
  revert log found. induction tries as [|parts rest IH]; intros log found.
  - simpl. intros E. injection E as <- <-. right.
    split; [intros p []|]. split; reflexivity.
  - rewrite search_loop_step. cbv zeta.
    destruct (candidate_result (join (lit " ") parts) n) as [|h hs] eqn:Ec.
    + simpl truthy. cbv iota.
      destruct (search_loop rest n) as [[log' found']|e]; simpl; [|discriminate].
      intros E. injection E as <- <-.
      destruct (IH _ _ eq_refl)
        as [[pre [parts' [post [-> [Hpre [Hf [Hne Hlog]]]]]]] | [Hall [Hf Hlog]]].
      * left. exists (parts :: pre), parts', post.
        split; [reflexivity|]. split.
        { intros p [<- | Hp]; [exact Ec | apply Hpre; exact Hp]. }
        split; [exact Hf|]. split; [exact Hne|].
        simpl. rewrite Hlog. reflexivity.
      * right. split.
        { intros p [<- | Hp]; [exact Ec | apply Hall; exact Hp]. }
        split; [exact Hf|]. simpl. rewrite Hlog. reflexivity.
    + simpl truthy. cbv iota. intros E. injection E as <- <-.
      left. exists [], parts, rest. split; [reflexivity|].
      split; [intros p []|]. split; [symmetry; exact Ec|].
      split; [discriminate|]. simpl. rewrite app_nil_r.
      reflexivity.
Qed.

Lemma tries_length (topic : str) (f : filters) :
  (1 <= List.length (tries topic f) <= 3)%nat.
Proof.
  unfold tries.
  destruct (str_eqb (fcountry f) (lit "Any")),
    (str_eqb (fregion f) (lit "Any")); simpl; lia.
Qed.

(** X2. Whatever [search_web] returns, the searches it issued are an
    initial part of the candidate list, in order and at most three; with
    the placeholder key there is none.  When hits are returned they are the
    hits of the last search issued, and every search before it was empty or
    failed. *)
Theorem search_web_searches {W : World} (topic : str) (f : filters) (N : Z)
    (log : list event) (found : list hit) :
  search_web topic f N = Ok (log, found) ->
  (exists rest, query_candidates topic f = queries_of log ++ rest)
  /\ (List.length (queries_of log) <= 3)%nat
  /\ (API_KEY = lit "YOUR_SERPAPI_KEY_HERE" ->
      queries_of log = [] /\ found = [])
  /\ (found <> [] ->
      exists earlier query,
        queries_of log = earlier ++ [query]
        /\ candidate_result query N = found
        /\ forall q', In q' earlier -> candidate_result q' N = []).
Proof.
  unfold search_web, query_candidates.
  pose proof (tries_length topic f) as Hlen.
  destruct (str_eqb API_KEY (lit "YOUR_SERPAPI_KEY_HERE")) eqn:Ekey.
  - intros E. injection E as <- <-. simpl.
    split; [eexists; reflexivity|]. split; [lia|].
    split; [auto | congruence].
  - intros E. apply str_eqb_neq in Ekey.
    apply search_loop_inv in E
        as [[pre [parts [post [Et [Hpre [Hf [Hne ->]]]]]]] | [Hall [-> ->]]].
    + rewrite <- flat_map_of_map with (g := fun q' => candidate_log q' N).
      rewrite queries_of_candidate_logs. rewrite Et in *.
      split.
      { exists (map (join (lit " ")) post).
        rewrite !map_app, <- app_assoc. reflexivity. }
      split.
      { rewrite length_map, !length_app in *. simpl in *. lia. }
      split; [intros E; contradiction|].
      intros _. exists (map (join (lit " ")) pre), (join (lit " ") parts).
      split; [rewrite map_app; reflexivity|]. split; [symmetry; exact Hf|].
      intros q' Hq. apply in_map_iff in Hq as [p [<- Hp]]. apply Hpre, Hp.
    + rewrite <- flat_map_of_map with (g := fun q' => candidate_log q' N).
      rewrite queries_of_candidate_logs.
      split; [exists []; rewrite app_nil_r; reflexivity|].
      split; [rewrite length_map; lia|].
      split; [intros E; contradiction | congruence].
Qed.

Lemma search_web_searches_witness :
  let W := relaxing_world in
  let topic := lit "robotics for kids" in
  let f := any_filters (lit "Australia") (lit "Melbourne") in
  exists log found,
    search_web topic f 8 = Ok (log, found)
    /\ queries_of log = query_candidates topic f
    /\ exists earlier query,
         queries_of log = earlier ++ [query]
         /\ candidate_result query 8 = found.
Proof.
  intros W topic f.
  destruct (search_web topic f 8) as [[log found]|e] eqn:E;
    [|vm_compute in E; discriminate].
  exists log, found. split; [reflexivity|].
  destruct (search_web_searches (W := W) topic f 8 log found E)
    as [_ [_ [_ Hlast]]].
  assert (Hq : queries_of log = query_candidates topic f /\ found <> []).
  { vm_compute in E. injection E as <- <-. split; [reflexivity | discriminate]. }
  destruct Hq as [Hq Hne]. split; [exact Hq|].
  destruct (Hlast Hne) as [earlier [query [E1 [E2 _]]]].
  exists earlier, query. split; assumption.
Defined.

(** ** The shape of the queries *)

Lemma join_cons2 (sep p p' : str) (ps : list str) :
  join sep (p :: p' :: ps) = p ++ sep ++ join sep (p' :: ps).
Proof. reflexivity. Qed.

(** X3. The location decides the number of candidates: one when the
    country is [Any], two when only the country is set (the base query with
    the country, then the base query), never more than three; the last
    candidate is always the base query. *)
Theorem query_candidates_by_location (topic : str) (f : filters) :
  let base := join (lit " ") (base_parts topic f) in
  (fcountry f = lit "Any" -> query_candidates topic f = [base])
  /\ (fcountry f <> lit "Any" -> fregion f = lit "Any" ->
      query_candidates topic f = [base ++ lit " " ++ fcountry f; base])
  /\ (1 <= List.length (query_candidates topic f) <= 3)%nat
  /\ last (query_candidates topic f) [] = base.
Proof.
  intros base. unfold query_candidates. split; [|split; [|split]].
  - intros E. rewrite tries_any_country by exact E. reflexivity.
  - intros Hc Hr. rewrite tries_country_only by assumption. simpl map.
    rewrite join_snoc by apply base_parts_nonempty. reflexivity.
  - rewrite length_map. apply tries_length.
  - unfold tries.
    destruct (str_eqb (fcountry f) (lit "Any")),
      (str_eqb (fregion f) (lit "Any")); reflexivity.
Qed.

Lemma query_candidates_by_location_witness :
  query_candidates (lit "chess") (any_filters (lit "India") (lit "Any"))
  = [lit "chess education course OR workshop OR webinar OR training India";
     lit "chess education course OR workshop OR webinar OR training"].
Proof.
  destruct (query_candidates_by_location (lit "chess")
              (any_filters (lit "India") (lit "Any"))) as [_ [Htwo _]].
  rewrite Htwo; [reflexivity | vm_compute; discriminate | reflexivity].
Defined.

(** X4. The base terms always start with the topic and the two fixed
    terms, followed by at most one term for each of type, mode and cost; a
    type of [Article / Other] (like [Any]) adds no term, so that with mode
    and cost [Any] the base terms are the three fixed ones; and the base
    query always begins with the topic. *)
Theorem base_parts_terms (topic : str) (f : filters) :
  (exists extra,
      base_parts topic f
      = [topic; lit "education";
         lit "course OR workshop OR webinar OR training"] ++ extra
      /\ (List.length extra <= 3)%nat)
  /\ (ftype f = lit "Article / Other" \/ ftype f = lit "Any" ->
      fmode f = lit "Any" -> fcost f = lit "Any" ->
      base_parts topic f
      = [topic; lit "education";
         lit "course OR workshop OR webinar OR training"])
  /\ (exists tail,
         join (lit " ") (base_parts topic f)
         = topic
           ++ lit " education course OR workshop OR webinar OR training"
           ++ tail).
Proof.
  assert (Hshape : exists extra,
             base_parts topic f
             = [topic; lit "education";
                lit "course OR workshop OR webinar OR training"] ++ extra
             /\ (List.length extra <= 3)%nat).
  { unfold base_parts.
    repeat match goal with
           | |- context [if ?b then _ else _] => destruct b
           end;
      simpl; eexists; (split; [reflexivity | simpl; lia]). }
  split; [exact Hshape|]. split.
  - intros Ht Hm Hc. unfold base_parts. rewrite Hm, Hc.
    destruct Ht as [-> | ->]; reflexivity.
  - destruct Hshape as [extra [-> _]].
    destruct extra as [|x extra].
    + exists []. rewrite app_nil_r. reflexivity.
    + exists (lit " " ++ join (lit " ") (x :: extra)).
      cbn [app]. rewrite !join_cons2. reflexivity.
Qed.

Lemma base_parts_terms_witness :
  base_parts (lit "chess")
    {| ftype := lit "Article / Other"; fmode := lit "Any"; fcost := lit "Any";
       fcountry := lit "India"; fregion := lit "Delhi" |}
  = [lit "chess"; lit "education";
     lit "course OR workshop OR webinar OR training"].
Proof.
  destruct (base_parts_terms (lit "chess")
              {| ftype := lit "Article / Other"; fmode := lit "Any";
                 fcost := lit "Any"; fcountry := lit "India";
                 fregion := lit "Delhi" |}) as [_ [H _]].
  apply H; [left; reflexivity | reflexivity | reflexivity].
Defined.

(** ** Which hits are accepted *)

Lemma filter_test_false (wanted got : str) :
  negb (str_eqb wanted (lit "Any")) && negb (str_eqb got wanted) = false
  <-> filter_allows wanted got.
Proof.
  unfold filter_allows.
  rewrite andb_false_iff, !negb_false_iff, !str_eqb_eq. tauto.
Qed.

Lemma filter_test_true (wanted got : str) :
  negb (str_eqb wanted (lit "Any")) && negb (str_eqb got wanted) = true
  <-> ~ filter_allows wanted got.
Proof.
  rewrite <- filter_test_false.
  destruct (negb _ && negb _); split; congruence.
Qed.

Section AcceptanceProps.
Context {B : PyBuiltins} {W : World}.

(** X5. A hit whose page text is [page_text] is accepted exactly when its
    combined text is educational, matches the location, and agrees with
    every filter that is not [Any]; otherwise it is skipped, and in neither
    case does the validation raise. *)
Theorem validate_hit_accepts (f : filters) (r : hit) (page_text : str) :
  scrape_page (link r) default_max_chars = Ok page_text ->
  let c := combined_text r page_text in
  ((exists it, validate_hit f r = Ok (Some it))
   <-> is_educational c = true
       /\ matches_location c (fcountry f) (fregion f) = true
       /\ filter_allows (ftype f) (classify_type c)
       /\ filter_allows (fmode f) (classify_mode c)
       /\ filter_allows (fcost f) (classify_cost c))
  /\ ((~ exists it, validate_hit f r = Ok (Some it)) ->
      validate_hit f r = Ok None).
Proof.
  intros Hpage c. unfold validate_hit. rewrite Hpage. unfold bind. fold c.
  destruct (is_educational c); cbn [negb];
    [|split; [split; [intros [it E]; discriminate | intros [E _]; discriminate]
             | reflexivity]].
  destruct (matches_location c (fcountry f) (fregion f)); cbn [negb];
    [|split; [split; [intros [it E]; discriminate
                     | intros [_ [E _]]; discriminate]
             | reflexivity]].
  destruct (negb (str_eqb (ftype f) (lit "Any"))
            && negb (str_eqb (classify_type c) (ftype f))) eqn:Et.
  { apply filter_test_true in Et.
    split; [split; [intros [it E]; discriminate | tauto] | reflexivity]. }
  destruct (negb (str_eqb (fmode f) (lit "Any"))
            && negb (str_eqb (classify_mode c) (fmode f))) eqn:Em.
  { apply filter_test_true in Em.
    split; [split; [intros [it E]; discriminate | tauto] | reflexivity]. }
  destruct (negb (str_eqb (fcost f) (lit "Any"))
            && negb (str_eqb (classify_cost c) (fcost f))) eqn:Ec.
  { apply filter_test_true in Ec.
    split; [split; [intros [it E]; discriminate | tauto] | reflexivity]. }
  apply filter_test_false in Et, Em, Ec.
  split.
  - split; [auto | intros _; eexists; reflexivity].
  - intros Hno. exfalso. apply Hno. eexists; reflexivity.
Qed.

Lemma validate_hits_flat_map (f : filters) (hits : list hit)
    (acc : list item) :
  validate_hits f hits acc = Ok (acc ++ flat_map (accepted_items f) hits).
Proof.
  revert acc. induction hits as [|r rest IH]; intros acc; simpl.
  - rewrite app_nil_r. reflexivity.
  - unfold accepted_items at 1.
    destruct (validate_hit_total f r) as [[it|] ->]; simpl.
    + rewrite IH, <- app_assoc. reflexivity.
    + apply IH.
Qed.

Lemma accepted_items_fields (f : filters) (r : hit) (it : item) :
  In it (accepted_items f r) ->
  validate_hit f r = Ok (Some it)
  /\ item_title it = title r /\ item_link it = link r.
Proof.
  unfold accepted_items.
  destruct (validate_hit f r) as [[it'|]|e] eqn:E; simpl; try tauto.
  intros [<- | []]. split; [reflexivity|].
  apply validate_hit_item in E as [p [_ [_ [_ ->]]]]. split; reflexivity.
Qed.

(** X6. The accepted items are the items of the accepted hits, one for
    each, in the order of the hits: their links are the links of the
    accepted hits in that order, there are never more items than hits, and
    title and link are copied from the hit. *)
Theorem validate_hits_in_order (f : filters) (hits : list hit) :
  validate_hits f hits [] = Ok (flat_map (accepted_items f) hits)
  /\ map item_link (flat_map (accepted_items f) hits)
     = map link (filter (fun r => truthy (accepted_items f r)) hits)
  /\ (List.length (flat_map (accepted_items f) hits) <= List.length hits)%nat
  /\ (forall it,
         In it (flat_map (accepted_items f) hits) ->
         exists r, In r hits /\ item_title it = title r
                   /\ item_link it = link r).
Proof.
  split; [apply validate_hits_flat_map|]. split; [|split].
  - induction hits as [|r rest IH]; simpl; [reflexivity|].
    rewrite map_app, IH.
    destruct (accepted_items f r) as [|it l] eqn:E; simpl; [reflexivity|].
    assert (Hin : In it (accepted_items f r)) by (rewrite E; left; reflexivity).
    apply accepted_items_fields in Hin as [Hv [_ Hl]].
    unfold accepted_items in E. rewrite Hv in E. injection E as <-.
    simpl. rewrite Hl. reflexivity.
  - induction hits as [|r rest IH]; simpl; [lia|].
    rewrite length_app. unfold accepted_items at 1.
    destruct (validate_hit f r) as [[it|]|e]; simpl; lia.
  - intros it Hin. apply in_flat_map in Hin as [r [Hr Hit]].
    apply accepted_items_fields in Hit as [_ [Ht Hl]].
    exists r. auto.
Qed.

(** X7. When the page was fetched and title and snippet together have at
    most 498 code points, nothing is cut from the combined text: the raw
    text of the item is the title, the snippet and the page text (itself
    at most 1500 code points), each separated by a space. *)
Theorem raw_text_complete (f : filters) (r : hit) (it : item)
    (words : list str) :
  validate_hit f r = Ok (Some it) ->
  page_words (link r) = Ok words ->
  Z.of_nat (List.length (title r)) + Z.of_nat (List.length (snippet r)) <= 498 ->
  raw_text it
  = title r ++ lit " " ++ snippet r ++ lit " "
    ++ slice_to (join (lit " ") words) 1500
  /\ Z.of_nat (List.length (slice_to (join (lit " ") words) 1500)) <= 1500.
Proof.
  intros Hv Hw Hlen.
  apply validate_hit_item in Hv as [page_text [Hpage [_ [_ ->]]]].
  unfold scrape_page, try_except, bind in Hpage. rewrite Hw in Hpage.
  injection Hpage as <-. cbn [raw_text]. unfold default_max_chars.
  pose proof (slice_to_length (join (lit " ") words) 1500 ltac:(lia)) as Hp.
  split; [|exact Hp].
  apply slice_to_short. unfold combined_text.
  rewrite !length_app. simpl List.length. lia.
Qed.

End AcceptanceProps.

Lemma validate_hit_accepts_witness :
  let B := ascii_builtins in
  let W := steady_world (lit "0123abcd") in
  let r := {| title := lit "Kids Robotics Course"; link := lit "http://x";
              snippet := lit "Free online robotics course for children" |} in
  (exists it, validate_hit (any_filters (lit "Any") (lit "Any")) r
              = Ok (Some it))
  /\ validate_hit {| ftype := lit "Video / Lecture"; fmode := lit "Any";
                     fcost := lit "Any"; fcountry := lit "Any";
                     fregion := lit "Any" |} r = Ok None.
Proof.
  intros B W r.
  destruct (validate_hit_accepts (B := B) (W := W)
              (any_filters (lit "Any") (lit "Any")) r
              (lit "Free online robotics course for children") eq_refl)
    as [Hiff _].
  destruct (validate_hit_accepts (B := B) (W := W)
              {| ftype := lit "Video / Lecture"; fmode := lit "Any";
                 fcost := lit "Any"; fcountry := lit "Any";
                 fregion := lit "Any" |} r
              (lit "Free online robotics course for children") eq_refl)
    as [_ Hnone].
  split.
  - apply Hiff. repeat split; try reflexivity; left; reflexivity.
  - apply Hnone. intros [it E]. vm_compute in E. discriminate.
Defined.

Lemma raw_text_complete_witness :
  let B := ascii_builtins in
  let W := steady_world (lit "0123abcd") in
  let r := {| title := lit "Kids Robotics Course"; link := lit "http://x";
              snippet := lit "Free online robotics course for children" |} in
  exists it,
    validate_hit (any_filters (lit "Any") (lit "Any")) r = Ok (Some it)
    /\ raw_text it
       = lit "Kids Robotics Course Free online robotics course for children Free online robotics course for children".
Proof.
  intros B W r.
  destruct (validate_hit (any_filters (lit "Any") (lit "Any")) r)
    as [[it|]|e] eqn:E; try (vm_compute in E; discriminate).
  exists it. split; [reflexivity|].
  destruct (raw_text_complete (B := B) (W := W) _ r it robotics_words E
              eq_refl) as [Hraw _].
  - vm_compute. discriminate.
  - rewrite Hraw. reflexivity.
Defined.

(** ** The page and the store together *)

Lemma save_items_keeps_wf {B : PyBuiltins} (topic : str) (items : list item)
    (db db' : database) :
  wf db -> save_items topic items db = Ok db' -> wf db'.
Proof.
  revert db. induction items as [|it items IH]; intros db Hwf; simpl.
  - intros E. injection E as <-. exact Hwf.
  - destruct (save_result topic (item_title it) (item_link it) (content_of it) db)
      as [db1|e] eqn:E1; simpl; [|discriminate].
    apply IH. apply (save_result_keeps_wf _ _ _ _ _ _ Hwf E1).
Qed.



Lemma search_web_capped {W : World} (topic : str) (f : filters) (n : Z)
    (log : list event) (found : list hit) :
  0 <= n -> search_web topic f n = Ok (log, found) ->
  Z.of_nat (List.length found) <= n.
Proof.
  intros Hn. unfold search_web. destruct (str_eqb API_KEY _).
  - intros E. injection E as _ <-. simpl. exact Hn.
  - intros E. apply search_loop_found in E as [-> | [p [_ ->]]].
    + simpl. exact Hn.
    + apply run_serpapi_query_capped. exact Hn.
Qed.

Lemma accepted_items_count {B : PyBuiltins} {W : World} (f : filters)
    (hits : list hit) :
  (List.length (flat_map (accepted_items f) hits) <= List.length hits)%nat.
Proof.
  induction hits as [|r rest IH]; simpl; [lia|].
  rewrite length_app. unfold accepted_items at 1.
  destruct (validate_hit f r) as [[it|]|e]; simpl; lia.
Qed.

Section PageProps.
Context {B : PyBuiltins} {W : World}.

Lemma find_programs_cases (topic : str) (f : filters) (n : Z) (db : database) :
  find_programs topic f n db
  = if negb (truthy (strip topic)) then Ok (TopicMissing, db)
    else
      match search_web topic f n with
      | Raise e => Raise e
      | Ok (_, []) => Ok (ZeroSearchResults, db)
      | Ok (_, hits) =>
          match flat_map (accepted_items f) hits with
          | [] => Ok (NoPageMatched, db)
          | items =>
              match save_items topic items db with
              | Ok db' => Ok (Showing items, db')
              | Raise e => Raise e
              end
          end
      end.
Proof.
  unfold find_programs, bind.
  destruct (negb (truthy (strip topic))); [reflexivity|].
  destruct (search_web topic f n) as [[log hits]|e]; [|reflexivity].
  destruct hits as [|h hits]; [reflexivity|]. cbn [truthy negb].
  rewrite validate_hits_flat_map. cbn [app].
  destruct (flat_map (accepted_items f) (h :: hits)); reflexivity.
Qed.

Lemma find_programs_showing_nonempty (topic : str) (f : filters) (n : Z)
    (db db' : database) (items : list item) :
  find_programs topic f n db = Ok (Showing items, db') -> items <> [].
Proof.
  rewrite find_programs_cases.
  destruct (negb (truthy (strip topic))); [discriminate|].
  destruct (search_web topic f n) as [[log [|h hits]]|e]; try discriminate.
  destruct (flat_map (accepted_items f) (h :: hits)) as [|it its];
    [discriminate|].
  cbv zeta.
  destruct (save_items topic (it :: its) db); [|discriminate].
  intros E. injection E as <- _. discriminate.
Qed.

(** X8. The page writes to the store only when it has accepted items to
    show: for a missing topic, an empty search or no accepted page the file
    is left as it was; otherwise the list shown is not empty and exactly one
    row per item is appended, each under the topic as its query.  The topic
    counts as missing exactly when it is empty after [strip]. *)
Theorem find_programs_store_effect (topic : str) (f : filters) (n : Z)
    (db db' : database) (o : outcome) :
  find_programs topic f n db = Ok (o, db') ->
  match o with
  | Showing items =>
      items <> []
      /\ exists new_rows,
           stored_rows db' = stored_rows db ++ new_rows
           /\ List.length new_rows = List.length items
           /\ Forall (fun r => query r = topic) new_rows
  | _ => db' = db
  end
  /\ (o = TopicMissing <-> strip topic = []).
Proof.
  rewrite find_programs_cases.
  destruct (strip topic) as [|c s] eqn:Estrip; cbn [truthy negb].
  { intros E. injection E as <- <-. split; [reflexivity | tauto]. }
  assert (Hne : forall o', o' <> TopicMissing ->
                           (o' = TopicMissing <-> c :: s = []))
    by (intros o' Ho'; split; [contradiction | discriminate]).
  destruct (search_web topic f n) as [[log hits]|e]; [|discriminate].
  destruct hits as [|h hits].
  { intros E. injection E as <- <-. split; [reflexivity|].
    apply Hne. discriminate. }
  destruct (flat_map (accepted_items f) (h :: hits)) as [|it items].
  { intros E. injection E as <- <-. split; [reflexivity|].
    apply Hne. discriminate. }
  cbv zeta.
  destruct (save_items topic (it :: items) db) as [db1|e] eqn:Es;
    [|discriminate].
  intros E. injection E as <- <-. split; [|apply Hne; discriminate].
  split; [discriminate|].
  destruct (save_items_rows _ _ _ _ Es) as [new_rows [Erows Hall]].
  exists new_rows. split; [exact Erows|]. split.
  - apply (Forall2_length Hall).
  - clear Erows Es. induction Hall as [|r it' rs its [Hq _] _ IH];
      constructor; assumption.
Qed.

(** X9. After a search that showed items, starting from a file written by
    [database.py] alone, [get_results] returns the rows of the new items
    first, the last item on top, followed by everything it returned before;
    each new row carries the title, link and tagged content of its item,
    and the page of saved results shows that table. *)
Theorem find_programs_then_get_results (topic : str) (f : filters) (n : Z)
    (db db' : database) (items : list item) :
  wf db ->
  find_programs topic f n db = Ok (Showing items, db') ->
  exists old new_rows,
    get_results db = Ok old
    /\ get_results db' = Ok (rev new_rows ++ old)
    /\ map row_title new_rows = map item_title items
    /\ map row_link new_rows = map item_link items
    /\ map content new_rows = map content_of items
    /\ saved_results_page db' = Ok (SavedTable (rev new_rows ++ old)).
Proof.
  intros Hwf E.
  pose proof (find_programs_showing_nonempty _ _ _ _ _ _ E) as Hitems.
  apply find_programs_showing in E as [log [hits [_ [Ev Es]]]].
  pose proof (save_items_keeps_wf _ _ _ _ Hwf Es) as Hwf'.
  destruct (save_items_rows _ _ _ _ Es) as [new_rows [Erows Hall]].
  destruct db as [t|].
  2:{ destruct items as [|it items]; [congruence | discriminate]. }
  destruct db' as [t'|].
  2:{ simpl in Erows. destruct (rows t), new_rows; try discriminate.
      inversion Hall. subst. congruence. }
  simpl in Erows.
  exists (rev (rows t)), new_rows.
  assert (Hget : get_results (Some t') = Ok (rev new_rows ++ rev (rows t))).
  { unfold get_results, select_all_desc.
    rewrite order_by_id_desc_rev by (destruct Hwf' as [Hs _]; exact Hs).
    rewrite Erows, rev_app_distr. reflexivity. }
  split.
  { unfold get_results, select_all_desc.
    rewrite order_by_id_desc_rev by (destruct Hwf as [Hs _]; exact Hs).
    reflexivity. }
  split; [exact Hget|].
  assert (Hmaps : map row_title new_rows = map item_title items
                  /\ map row_link new_rows = map item_link items
                  /\ map content new_rows = map content_of items).
  { clear -Hall. induction Hall as [|r it rs its [_ [Ht [Hl Hc]]] _ IH].
    - repeat split.
    - destruct IH as [IH1 [IH2 IH3]]. simpl.
      rewrite Ht, Hl, Hc, IH1, IH2, IH3. repeat split. }
  destruct Hmaps as [H1 [H2 H3]].
  split; [exact H1|]. split; [exact H2|]. split; [exact H3|].
  unfold saved_results_page. rewrite Hget. cbn [bind].
  destruct new_rows as [|r rs].
  - inversion Hall. subst. congruence.
  - destruct (rev (r :: rs) ++ rev (rows t)) eqn:Erev; [|reflexivity].
    apply app_eq_nil in Erev as [Erev _].
    apply (f_equal (@List.length row)) in Erev.
    rewrite length_rev in Erev. discriminate.
Qed.

End PageProps.

Lemma wf_empty_results : wf empty_results.
Proof.
  unfold empty_results, wf, wf_table. simpl.
  split; [constructor | split; [constructor | lia]].
Defined.

Lemma find_programs_store_effect_witness :
  let B := ascii_builtins in
  let W := steady_world (lit "0123abcd") in
  let f := any_filters (lit "Any") (lit "Any") in
  (exists items db',
      find_programs (lit "robotics") f 8 empty_results
      = Ok (Showing items, db')
      /\ List.length (stored_rows db') = List.length items)
  /\ find_programs (lit "   ") f 8 empty_results
     = Ok (TopicMissing, empty_results).
Proof.
  intros B W f. split.
  - destruct (find_programs (lit "robotics") f 8 empty_results)
      as [[[| | |items] db']|e] eqn:E; try (vm_compute in E; discriminate).
    exists items, db'. split; [reflexivity|].
    destruct (find_programs_store_effect (B := B) (W := W) _ f 8 _ _ _ E)
      as [[_ [new_rows [Erows [Hlen _]]]] _].
    rewrite Erows. simpl. exact Hlen.
  - destruct (find_programs (lit "   ") f 8 empty_results) as [[o db']|e] eqn:E;
      [|vm_compute in E; discriminate].
    destruct (find_programs_store_effect (B := B) (W := W) _ f 8 _ _ _ E)
      as [Hdb Htopic].
    assert (Ho : o = TopicMissing) by (apply Htopic; reflexivity).
    subst o. rewrite Hdb. reflexivity.
Defined.

Lemma find_programs_then_get_results_witness :
  let B := ascii_builtins in
  let W := steady_world (lit "0123abcd") in
  let f := any_filters (lit "Any") (lit "Any") in
  exists items db' shown,
    find_programs (lit "robotics") f 8 empty_results = Ok (Showing items, db')
    /\ saved_results_page db' = Ok (SavedTable shown)
    /\ map row_link shown = rev (map item_link items)
    /\ map id shown = [2; 1].
Proof.
  intros B W f.
  destruct (find_programs (lit "robotics") f 8 empty_results)
    as [[[| | |items] db']|e] eqn:E; try (vm_compute in E; discriminate).
  destruct (find_programs_then_get_results (B := B) (W := W) _ f 8 _ _ _
              wf_empty_results E)
    as [old [new_rows [Hold [_ [_ [Hlinks [_ Hpage]]]]]]].
  exists items, db', (rev new_rows ++ old).
  split; [reflexivity|]. split; [exact Hpage|].
  injection Hold as <-. rewrite app_nil_r. split.
  - rewrite map_rev, Hlinks. reflexivity.
  - assert (Hids : saved_results_page db'
                   = Ok (SavedTable (rev new_rows))
                   -> map id (rev new_rows) = [2; 1]).
    { vm_compute in E. injection E as _ <-. vm_compute.
      intros H. injection H as <-. reflexivity. }
    apply Hids. rewrite app_nil_r in Hpage. exact Hpage.
Defined.

(** ** Saving and listing *)

(** X10. Saving then listing: on a file written by [database.py] alone, a
    save that succeeds puts one new row on top of what [get_results]
    returned before, holding the four values given and an id larger than
    that of every other row. *)
Theorem save_then_get_results (q ti l c : str) (db db' : database) :
  wf db ->
  save_result q ti l c db = Ok db' ->
  exists r old,
    get_results db = Ok old
    /\ get_results db' = Ok (r :: old)
    /\ query r = q /\ row_title r = ti /\ row_link r = l /\ content r = c
    /\ Forall (fun r' => id r' < id r) old.
Proof.
  intros Hwf E.
  destruct (save_result_keeps_wf _ _ _ _ _ _ Hwf E)
    as [Hwf' [r [Erows [Hq [Ht [Hl [Hc Hlt]]]]]]].
  destruct db as [t|]; [|discriminate].
  destruct db' as [t'|];
    [|simpl in Erows; destruct (rows t); discriminate].
  simpl in Erows, Hlt. exists r, (rev (rows t)).
  unfold get_results, select_all_desc.
  rewrite !order_by_id_desc_rev
    by (try (destruct Hwf as [Hs _]; exact Hs);
        destruct Hwf' as [Hs _]; exact Hs).
  rewrite Erows, rev_app_distr. simpl.
  repeat split; try assumption. apply Forall_rev. exact Hlt.
Qed.

Lemma save_then_get_results_witness :
  exists db' r,
    save_result (lit "maths") (lit "Algebra") (lit "http://a") (lit "text")
      empty_results = Ok db'
    /\ get_results db' = Ok [r]
    /\ row_title r = lit "Algebra"
    /\ id r = 1.
Proof.
  destruct (save_result (lit "maths") (lit "Algebra") (lit "http://a")
              (lit "text") empty_results) as [db'|e] eqn:E;
    [|vm_compute in E; discriminate].
  destruct (save_then_get_results _ _ _ _ _ _ wf_empty_results E)
    as [r [old [Hold [Hnew [_ [Ht _]]]]]].
  injection Hold as <-. exists db', r.
  split; [reflexivity|]. split; [exact Hnew|]. split; [exact Ht|].
  vm_compute in E. injection E as <-. vm_compute in Hnew.
  injection Hnew as <-. reflexivity.
Defined.

(** The state of a file that started empty: the ids are 1, 2, 3, ... in
    insertion order and the counter is the number of rows. *)
Lemma counting_invariant (ops : list store_op) (db : database) :
  (match db with
   | None => True
   | Some t =>
       ids (rows t) = map Z.of_nat (List.seq 1 (List.length (rows t)))
       /\ seq t = Z.of_nat (List.length (rows t))
       /\ wf_table t
   end) ->
  match run_ops ops db with
  | None => True
  | Some t =>
      ids (rows t) = map Z.of_nat (List.seq 1 (List.length (rows t)))
      /\ seq t = Z.of_nat (List.length (rows t))
      /\ wf_table t
  end.
Proof.
  revert db. induction ops as [|op ops IH]; intros db Hinv; [exact Hinv|].
  change (run_ops (op :: ops) db) with (run_ops ops (run_op op db)).
  apply IH. destruct op as [|q ti l c|]; simpl.
  - destruct db as [t|]; simpl; [exact Hinv|].
    split; [reflexivity|]. split; [reflexivity|].
    split; [constructor | split; [constructor | simpl; lia]].
  - destruct db as [t|]; [|exact I].
    destruct Hinv as [Hids [Hseq Hwf]].
    assert (Hwf0 : wf (Some t)) by exact Hwf.
    destruct (save_result q ti l c (Some t)) as [db1|e] eqn:E;
      [|split; [exact Hids | split; [exact Hseq | exact Hwf]]].
    pose proof (save_result_keeps_wf _ _ _ _ _ _ Hwf0 E) as [Hwf1 _].
    rewrite (save_result_wf _ _ _ _ _ Hwf) in E.
    destruct (seq t <? max_rowid); [|discriminate].
    injection E as <-. simpl in *.
    unfold ids in *. rewrite map_app, length_app, Hids. simpl.
    rewrite Nat.add_1_r, seq_S, map_app. simpl.
    split; [|split; [lia | exact Hwf1]].
    f_equal. f_equal. lia.
  - exact Hinv.
Qed.

(** X11. In a file that started empty the ids are the numbers 1, 2, 3, ...
    in insertion order, whatever sequence of operations was run: the k-th
    row saved has id k. *)
Theorem ids_count_from_one (ops : list store_op) :
  let db' := run_ops ops None in
  ids (stored_rows db')
  = map Z.of_nat (List.seq 1 (List.length (stored_rows db')))
  /\ (forall k r, nth_error (stored_rows db') k = Some r ->
                  id r = Z.of_nat (S k)).
Proof.
  intros db'. pose proof (counting_invariant ops None I) as Hinv.
  fold db' in Hinv.
  assert (Hids : ids (stored_rows db')
                 = map Z.of_nat (List.seq 1 (List.length (stored_rows db')))).
  { destruct db' as [t|]; [apply Hinv | reflexivity]. }
  split; [exact Hids|].
  intros k r Hk.
  assert (Hlt : (k < List.length (stored_rows db'))%nat)
    by (apply nth_error_Some; congruence).
  apply (map_nth_error id) in Hk. fold (ids (stored_rows db')) in Hk.
  rewrite Hids in Hk.
  rewrite (map_nth_error Z.of_nat k (List.seq 1 (List.length (stored_rows db')))
             (d := S k)) in Hk.
  - injection Hk as <-. reflexivity.
  - rewrite nth_error_nth' with (d := O) by (rewrite length_seq; exact Hlt).
    rewrite seq_nth by exact Hlt. reflexivity.
Qed.

Lemma ids_count_from_one_witness :
  let ops := [OpSave (lit "early") (lit "T") (lit "http://t") (lit "c");
              OpCreate;
              OpSave (lit "maths") (lit "A") (lit "http://a") (lit "one");
              OpList;
              OpSave (lit "maths") (lit "B") (lit "http://b") (lit "two")] in
  map row_title (stored_rows (run_ops ops None)) = [lit "A"; lit "B"]
  /\ ids (stored_rows (run_ops ops None)) = [1; 2].
Proof.
  intros ops. split; [reflexivity|].
  destruct (ids_count_from_one ops) as [Hids _].
  rewrite Hids. reflexivity.
Defined.

(** ** What can go wrong when the button is pressed *)

Section FailureProps.
Context {B : PyBuiltins} {W : World}.


End FailureProps.


(** ** Labels and keywords *)

Lemma occurs_trans (a b t : str) : occurs a b -> occurs b t -> occurs a t.
Proof.
  intros [p [s ->]] [p' [s' ->]]. exists (p' ++ p), (s ++ s').
  rewrite <- !app_assoc. reflexivity.
Qed.

Lemma str_in_longer (a b t : str) :
  occurs a b -> str_in a t || str_in b t = str_in a t.
Proof.
  intros Hab. destruct (str_in a t) eqn:Ea; [reflexivity|].
  destruct (str_in b t) eqn:Eb; [|reflexivity].
  apply str_in_spec in Eb. apply str_in_false in Ea.
  exfalso. apply Ea. apply (occurs_trans a b t Hab Eb).
Qed.

Section LabelProps.
Context {B : PyBuiltins}.

(** X13. The classifiers only ever return their labels: one of four
    types, one of three modes, one of three costs. *)
Theorem classifier_ranges (text : str) :
  In (classify_type text)
    [lit "Seminar / Workshop"; lit "Video / Lecture"; lit "Course";
     lit "Article / Other"]
  /\ In (classify_mode text) [lit "Online"; lit "In-person"; lit "Unknown"]
  /\ In (classify_cost text) [lit "Free"; lit "Paid / Unknown"; lit "Unknown"].
Proof.
  unfold classify_type, classify_mode, classify_cost.
  repeat split;
    repeat match goal with
           | |- context [if ?b then _ else _] => destruct b
           end; simpl; tauto.
Qed.

(** X14. Two keywords never change a result: [short course] is tested
    after [course] and contains it, and [on campus] after [campus]; the
    classifiers are the first-match-wins functions of the groups without
    them. *)
Theorem redundant_keywords (text : str) :
  classify_type text
  = first_match
      [ ([lit "webinar"; lit "seminar"; lit "workshop"],
         lit "Seminar / Workshop");
        ([lit "video"; lit "youtube"; lit "lecture"], lit "Video / Lecture");
        ([lit "course"; lit "bootcamp"; lit "mooc"], lit "Course") ]
      (lit "Article / Other") (lower text)
  /\ classify_mode text
     = first_match
         [ ([lit "online"; lit "virtual"; lit "remote"; lit "self-paced"],
            lit "Online");
           ([lit "campus"; lit "in-person"; lit "classroom"; lit "venue"],
            lit "In-person") ]
         (lit "Unknown") (lower text).
Proof.
  assert (H1 : occurs (lit "course") (lit "short course"))
    by (apply str_in_spec; vm_compute; reflexivity).
  assert (H2 : occurs (lit "campus") (lit "on campus"))
    by (apply str_in_spec; vm_compute; reflexivity).
  split.
  - unfold classify_type. cbn [first_match]. unfold any. cbn [existsb].
    rewrite (str_in_longer _ _ (lower text) H1).
    rewrite ?orb_false_r, ?orb_assoc. reflexivity.
  - unfold classify_mode. cbn [first_match]. unfold any. cbn [existsb].
    replace (str_in (lit "campus") (lower text)
             || str_in (lit "in-person") (lower text)
             || str_in (lit "on campus") (lower text))
      with (str_in (lit "campus") (lower text)
            || str_in (lit "in-person") (lower text)).
    + rewrite ?orb_false_r, ?orb_assoc. reflexivity.
    + rewrite <- (str_in_longer _ _ (lower text) H2) at 1.
      destruct (str_in (lit "campus") (lower text)),
        (str_in (lit "in-person") (lower text)),
        (str_in (lit "on campus") (lower text)); reflexivity.
Qed.

End LabelProps.

(** ** The rows of cards *)

Lemma firstn_add_skipn {A : Type} (a b : nat) (l : list A) :
  firstn (a + b) l = firstn a l ++ firstn b (skipn a l).
Proof.
  revert l. induction a as [|a IH]; intros l; simpl; [reflexivity|].
  destruct l as [|x l]; simpl.
  - rewrite firstn_nil. reflexivity.
  - rewrite IH. reflexivity.
Qed.

Lemma firstn_min_length {A : Type} (m : nat) (l : list A) :
  firstn (Nat.min m (List.length l)) l = firstn m l.
Proof.
  destruct (Nat.le_ge_cases m (List.length l)) as [H | H].
  - rewrite Nat.min_l by exact H. reflexivity.
  - rewrite Nat.min_r by exact H.
    rewrite firstn_all, firstn_all2 by exact H. reflexivity.
Qed.

(** From a position [i >= 0] the slice [l[i:i + 3]] is the next three
    elements, or as many as are left. *)
Lemma slice_three {A : Type} (l : list A) (i : Z) :
  0 <= i -> slice l i (i + 3) = firstn 3 (skipn (Z.to_nat i) l).
Proof.
  intros Hi. unfold slice.
  destruct (Z.ltb_spec i 0); [lia|].
  destruct (Z.ltb_spec (i + 3) 0); [lia|].
  destruct (Z.le_gt_cases i (Z.of_nat (List.length l))) as [Hle | Hgt].
  - rewrite (Z.min_l i) by exact Hle.
    rewrite <- (firstn_min_length 3). rewrite length_skipn.
    f_equal. lia.
  - rewrite (Z.min_r i) by lia. rewrite (Z.min_r (i + 3)) by lia.
    rewrite Z.sub_diag. simpl firstn.
    rewrite (skipn_all2 l) by lia. reflexivity.
Qed.

Lemma card_rows_chunks (items : list item) :
  card_rows items
  = map (fun k => firstn 3 (skipn (3 * k) items))
      (List.seq 0 (Z.to_nat ((Z.of_nat (List.length items) + 2) / 3))).
Proof.
  unfold card_rows, range_step, cards_per_row. rewrite map_map.
  replace (Z.of_nat (List.length items) + 3 - 1)
    with (Z.of_nat (List.length items) + 2) by lia.
  apply map_ext. intros k. rewrite slice_three by lia. f_equal. f_equal. lia.
Qed.

Lemma concat_chunks {A : Type} (l : list A) (k : nat) :
  List.concat (map (fun j => firstn 3 (skipn (3 * j) l)) (List.seq 0 k))
  = firstn (3 * k) l.
Proof.
  induction k as [|k IH]; [reflexivity|].
  rewrite seq_S, map_app, List.concat_app, IH. simpl map. simpl List.concat.
  rewrite app_nil_r. replace (3 * S k)%nat with (3 * k + 3)%nat by lia.
  rewrite firstn_add_skipn. reflexivity.
Qed.

(** X15. The cards are laid out in rows that together are the accepted
    items, each once and in order; every row has one, two or three cards,
    so [st.columns] is never asked for zero columns, and every row but the
    last has three. *)
Theorem card_rows_partition (items : list item) :
  List.concat (card_rows items) = items
  /\ Forall (fun row => (1 <= List.length row <= 3)%nat) (card_rows items)
  /\ (forall k row,
         nth_error (card_rows items) k = Some row ->
         (S k < List.length (card_rows items))%nat ->
         List.length row = 3%nat)
  /\ Z.of_nat (List.length (card_rows items))
     = (Z.of_nat (List.length items) + 2) / 3.
Proof.
  rewrite card_rows_chunks.
  set (n := List.length items).
  set (k := Z.to_nat ((Z.of_nat n + 2) / 3)).
  assert (Hk : (3 * k - 3 < n <= 3 * k)%nat \/ (n = 0 /\ k = 0)%nat).
  { unfold k.
    pose proof (Z.div_mod (Z.of_nat n + 2) 3 ltac:(lia)) as Hdm.
    pose proof (Z.mod_pos_bound (Z.of_nat n + 2) 3 ltac:(lia)) as Hm.
    assert (0 <= (Z.of_nat n + 2) / 3) by (apply Z.div_pos; lia).
    destruct n as [|n']; [right; split; reflexivity|]. left. lia. }
  assert (Hrow : forall j, (j < k)%nat ->
                           List.length (firstn 3 (skipn (3 * j) items))
                           = Nat.min 3 (n - 3 * j)).
  { intros j Hj. rewrite length_firstn, length_skipn. reflexivity. }
  split; [|split; [|split]].
  - rewrite concat_chunks. apply firstn_all2. fold n. lia.
  - apply Forall_forall. intros row Hin.
    apply in_map_iff in Hin as [j [<- Hj]].
    apply in_seq in Hj. rewrite Hrow by lia. lia.
  - intros j row Hnth Hlast. rewrite length_map, length_seq in Hlast.
    apply nth_error_In in Hnth as Hin.
    assert (Hj : nth_error (List.seq 0 k) j = Some j).
    { rewrite nth_error_nth' with (d := O) by (rewrite length_seq; lia).
      rewrite seq_nth by lia. reflexivity. }
    rewrite (map_nth_error _ _ _ Hj) in Hnth.
    apply (f_equal (fun o => match o with Some x => x | None => row end))
      in Hnth.
    cbv beta iota in Hnth. subst row. rewrite Hrow by lia. lia.
  - rewrite length_map, length_seq. unfold k.
    rewrite Z2Nat.id; [reflexivity|]. apply Z.div_pos; lia.
Qed.

Lemma card_rows_partition_witness :
  let it := {| item_title := lit "T"; item_link := lit "http://t";
               item_snippet := []; item_type := lit "Course";
               item_mode := lit "Unknown"; item_cost := lit "Unknown";
               item_country := lit "Any"; item_region := lit "Any";
               raw_text := lit "T" |} in
  map (@List.length item) (card_rows [it; it; it; it; it; it; it]) = [3; 3; 1]%nat
  /\ List.concat (card_rows [it; it; it; it]) = [it; it; it; it]
  /\ card_rows [] = [].
Proof.
  intros it.
  destruct (card_rows_partition [it; it; it; it]) as [Hconcat _].
  split; [reflexivity|]. split; [exact Hconcat | reflexivity].
Defined.

(** ** What is shown *)

Lemma candidate_result_links {W : World} (query : str) (n : Z) (h : hit) :
  In h (candidate_result query n) -> link h <> [].
Proof.
  unfold candidate_result, _run_serpapi_query, bind.
  destruct (GoogleSearch_get_dict _) as [data|e]; simpl; [|tauto].
  apply collect_hits_links.
Qed.

Lemma search_web_links {W : World} (topic : str) (f : filters) (n : Z)
    (log : list event) (found : list hit) (h : hit) :
  search_web topic f n = Ok (log, found) -> In h found -> link h <> [].
Proof.
  unfold search_web. destruct (str_eqb API_KEY _).
  - intros E. injection E as _ <-. intros [].
  - intros E. apply search_loop_found in E as [-> | [p [_ ->]]].
    + intros [].
    + apply candidate_result_links.
Qed.

Section ShownProps.
Context {B : PyBuiltins} {W : World}.

(** X16. Every item shown comes from a hit of the search: its title and
    its link are those of the hit, the link is never empty, it carries the
    country and region of the filters, and for a cap [num_results >= 0]
    there are at most [num_results] items. *)
Theorem shown_items_come_from_hits (topic : str) (f : filters) (n : Z)
    (db db' : database) (items : list item) :
  find_programs topic f n db = Ok (Showing items, db') ->
  (exists log hits,
      search_web topic f n = Ok (log, hits)
      /\ forall it, In it items ->
           exists r, In r hits /\ item_title it = title r
                     /\ item_link it = link r)
  /\ (forall it, In it items ->
        item_link it <> []
        /\ item_country it = fcountry f /\ item_region it = fregion f)
  /\ (0 <= n -> Z.of_nat (List.length items) <= n).
Proof.
  intros E. apply find_programs_showing in E as [log [hits [Es [Ev _]]]].
  rewrite validate_hits_flat_map in Ev. cbn [app] in Ev. injection Ev as <-.
  assert (Hfrom : forall it,
             In it (flat_map (accepted_items f) hits) ->
             exists r, In r hits /\ validate_hit f r = Ok (Some it)
                       /\ item_title it = title r /\ item_link it = link r).
  { intros it Hin. apply in_flat_map in Hin as [r [Hr Hit]].
    apply accepted_items_fields in Hit as [Hv [Ht Hl]]. exists r. auto. }
  split; [|split].
  - exists log, hits. split; [exact Es|].
    intros it Hin. destruct (Hfrom it Hin) as [r [Hr [_ [Ht Hl]]]].
    exists r. auto.
  - intros it Hin. destruct (Hfrom it Hin) as [r [Hr [Hv [_ Hl]]]].
    split.
    + rewrite Hl. apply (search_web_links _ _ _ _ _ r Es Hr).
    + apply validate_hit_item in Hv as [p [_ [_ [_ ->]]]]. split; reflexivity.
  - intros Hn. pose proof (search_web_capped _ _ _ _ _ Hn Es).
    pose proof (accepted_items_count f hits). lia.
Qed.


End ShownProps.

Lemma shown_items_come_from_hits_witness :
  let B := ascii_builtins in
  let W := steady_world (lit "0123abcd") in
  let f := any_filters (lit "Australia") (lit "Melbourne") in
  exists it db',
    find_programs (lit "workshops") f 8 empty_results = Ok (Showing [it], db')
    /\ item_link it = lit "http://y"
    /\ item_region it = lit "Melbourne"
    /\ Z.of_nat (List.length [it]) <= 8.
Proof.
  intros B W f.
  destruct (find_programs (lit "workshops") f 8 empty_results)
    as [[[| | |items] db']|e] eqn:E; try (vm_compute in E; discriminate).
  destruct (shown_items_come_from_hits (B := B) (W := W) _ f 8 _ _ _ E)
    as [_ [Hfields Hcount]].
  assert (Hit : exists it, items = [it] /\ item_link it = lit "http://y").
  { vm_compute in E. injection E as <- _. eexists. split; reflexivity. }
  destruct Hit as [it [-> Hl]]. exists it, db'.
  split; [reflexivity|]. split; [exact Hl|].
  destruct (Hfields it (or_introl eq_refl)) as [_ [_ Hr]].
  split; [exact Hr | apply Hcount; lia].
Defined.


(** ** The content decides the item *)

(** X18. The content string tells apart what it was built from: two items
    whose type, mode, cost, country and region hold no closing bracket and
    no newline, and whose contents are equal, have the same five tags and
    the same raw text. *)
Theorem content_of_injective (it1 it2 : item) :
  Forall (fun s => tag_safe s = true)
    [item_type it1; item_mode it1; item_cost it1; item_country it1;
     item_region it1;
     item_type it2; item_mode it2; item_cost it2; item_country it2;
     item_region it2] ->
  content_of it1 = content_of it2 ->
  tags_of it1 = tags_of it2 /\ raw_text it1 = raw_text it2.
Proof.
  intros Hsafe E.
  repeat match goal with
         | H : Forall _ (_ :: _) |- _ =>
             let Hx := fresh "Hs" in
             apply Forall_cons_iff in H as [Hx H]
         end.
  assert (P1 : parse_tags (content_of it1) = Some (tags_of it1))
    by (rewrite content_of_tag_block; apply parse_tags_tag_block; assumption).
  assert (P2 : parse_tags (content_of it2) = Some (tags_of it2))
    by (rewrite content_of_tag_block; apply parse_tags_tag_block; assumption).
  assert (Etags : tags_of it1 = tags_of it2) by congruence.
  split; [exact Etags|].
  rewrite !content_of_tag_block in E.
  pose proof (f_equal tag_type Etags) as E1.
  pose proof (f_equal tag_mode Etags) as E2.
  pose proof (f_equal tag_cost Etags) as E3.
  pose proof (f_equal tag_country Etags) as E4.
  pose proof (f_equal tag_region Etags) as E5.
  cbn [tags_of tag_type tag_mode tag_cost tag_country tag_region]
    in E1, E2, E3, E4, E5.
  rewrite E1, E2, E3, E4, E5 in E.
  apply app_inv_head in E. apply app_inv_head in E. exact E.
Qed.

Lemma content_of_injective_witness :
  let it1 := {| item_title := lit "T"; item_link := lit "http://t";
                item_snippet := []; item_type := lit "Course";
                item_mode := lit "Online"; item_cost := lit "Free";
                item_country := lit "India"; item_region := lit "Delhi";
                raw_text := lit "free [online] course" |} in
  let it2 := {| item_title := lit "Another title"; item_link := lit "http://u";
                item_snippet := lit "s"; item_type := lit "Course";
                item_mode := lit "Online"; item_cost := lit "Free";
                item_country := lit "India"; item_region := lit "Delhi";
                raw_text := lit "free [online] course" |} in
  content_of it1 = content_of it2
  /\ tags_of it1 = tags_of it2
  /\ raw_text it1 = raw_text it2.
Proof.
  intros it1 it2.
  destruct (content_of_injective it1 it2) as [Htags Hraw].
  - repeat constructor.
  - reflexivity.
  - split; [reflexivity|]. split; [exact Htags | exact Hraw].
Defined.

Lemma validate_hits_in_order_witness :
  let B := ascii_builtins in
  let W := steady_world (lit "0123abcd") in
  let f := any_filters (lit "Any") (lit "Any") in
  let hits := candidate_result (lit "robotics") 8 in
  exists items,
    validate_hits f hits [] = Ok items
    /\ map item_link items = [lit "http://x"; lit "http://y"]
    /\ map link hits = [lit "http://x"; lit "http://y"].
Proof.
  intros B W f hits.
  destruct (validate_hits_in_order (B := B) (W := W) f hits) as [Hv [Hl _]].
  exists (flat_map (accepted_items f) hits).
  split; [exact Hv|]. split; [|reflexivity].
  rewrite Hl. reflexivity.
Defined.
